(** * vimiv: image writing and exif handling

    A shallow embedding of [vimiv/imutils/exif.py] and
    [vimiv/imutils/imfile_handler.py], followed by the properties of the
    write pipeline and of the metadata handlers.

    Python objects with mutable attributes are records threaded through the
    functions; a call that may raise returns a [Result]; the file system is
    an explicit value. *)

From stdpp Require Import gmap strings list fin_maps pretty.
From Stdlib Require Import ZArith NArith Ascii String.

Set Warnings "-register-all".
Local Open Scope string_scope.
Local Open Scope Z_scope.

(** ** Python preliminaries *)

Module Py.

(** The exceptions that occur in the two modules.  [UnsupportedExifOperation]
    and [WriteError] are the classes the source defines; both carry their
    message. *)
Inductive Exc :=
| KeyError
| IndexError
| TypeError
| AttributeError
| ValueError
| UnicodeDecodeError
| InvalidImageDataError
| OSError
| FileNotFoundError
| FileExistsError
| IsADirectoryError
| UnsupportedExifOperation (msg : string)
| WriteError (msg : string).

(** [except KeyError], [except TypeError], ... with Python's class
    hierarchy: UnicodeDecodeError and piexif's InvalidImageDataError derive
    from ValueError, the file errors from OSError. *)
Definition is_KeyError (e : Exc) : bool :=
  match e with KeyError => true | _ => false end.
Definition is_TypeError (e : Exc) : bool :=
  match e with TypeError => true | _ => false end.
Definition is_AttributeError (e : Exc) : bool :=
  match e with AttributeError => true | _ => false end.
Definition is_InvalidImageDataError (e : Exc) : bool :=
  match e with InvalidImageDataError => true | _ => false end.
Definition is_ValueError (e : Exc) : bool :=
  match e with
  | ValueError | UnicodeDecodeError | InvalidImageDataError => true
  | _ => false
  end.
Definition is_FileNotFoundError (e : Exc) : bool :=
  match e with FileNotFoundError => true | _ => false end.
Definition is_OSError (e : Exc) : bool :=
  match e with
  | OSError | FileNotFoundError | FileExistsError | IsADirectoryError => true
  | _ => false
  end.
Definition is_WriteError (e : Exc) : bool :=
  match e with WriteError _ => true | _ => false end.

(** The outcome of a call: a value or a raised exception. *)
Inductive Result (A : Type) :=
| Ok (a : A)
| Raise (e : Exc).
Arguments Ok {A} a.
Arguments Raise {A} e.

Definition bind {A B} (r : Result A) (k : A -> Result B) : Result B :=
  match r with Ok a => k a | Raise e => Raise e end.

Definition returns {A} (r : Result A) : bool :=
  match r with Ok _ => true | Raise _ => false end.

(** Python values that flow through the metadata handlers. *)
Inductive Val :=
| VNone
| VInt (z : Z)
| VStr (s : string)
| VBytes (b : string)
| VTuple (l : list Val)
| VList (l : list Val).

(** *** str methods (on ASCII text) *)

Definition lower_ascii (c : ascii) : ascii :=
  let n := N_of_ascii c in
  if ((65 <=? n) && (n <=? 90))%N then ascii_of_N (n + 32) else c.

Fixpoint lower (s : string) : string :=
  match s with
  | EmptyString => EmptyString
  | String c s' => String (lower_ascii c) (lower s')
  end.

Definition is_space (c : ascii) : bool :=
  let n := N_of_ascii c in
  (((9 <=? n) && (n <=? 13)) || ((28 <=? n) && (n <=? 32)))%N.

Fixpoint lstrip (s : string) : string :=
  match s with
  | EmptyString => EmptyString
  | String c s' => if is_space c then lstrip s' else s
  end.

Fixpoint rstrip (s : string) : string :=
  match s with
  | EmptyString => EmptyString
  | String c s' =>
      match rstrip s' with
      | EmptyString => if is_space c then EmptyString else String c EmptyString
      | t => String c t
      end
  end.

Definition strip (s : string) : string := rstrip (lstrip s).

Fixpoint startswith (s p : string) {struct p} : bool :=
  match p with
  | EmptyString => true
  | String a p' =>
      match s with
      | EmptyString => false
      | String b s' => Ascii.eqb a b && startswith s' p'
      end
  end.

(** [s.rpartition(sep)[2]]: what follows the last [sep], the whole of [s]
    when there is none. *)
Fixpoint rpartition_tail (sep : ascii) (s : string) : string :=
  match s with
  | EmptyString => EmptyString
  | String c s' =>
      if existsb (Ascii.eqb sep) (list_ascii_of_string s')
      then rpartition_tail sep s'
      else if Ascii.eqb sep c then s' else s
  end.

(** [s.split(sep)[0]]: what precedes the first [sep]. *)
Fixpoint split_head (sep : ascii) (s : string) : string :=
  match s with
  | EmptyString => EmptyString
  | String c s' => if Ascii.eqb sep c then EmptyString else String c (split_head sep s')
  end.

(** [sep.join(l)] *)
Fixpoint join (sep : string) (l : list string) : string :=
  match l with
  | [] => ""
  | [x] => x
  | x :: l' => x ++ sep ++ join sep l'
  end.

(** *** bytes.decode()

    Strict UTF-8.  A Python [str] is kept as its UTF-8 encoding, so a
    successful decode returns the bytes as they are.  [pending] holds the
    admissible ranges of the continuation bytes still expected. *)
Fixpoint utf8_ok (pending : list (N * N)) (b : string) : bool :=
  match b with
  | EmptyString => match pending with [] => true | _ => false end
  | String c b' =>
      let n := N_of_ascii c in
      match pending with
      | (lo, hi) :: rest => ((lo <=? n) && (n <=? hi))%N && utf8_ok rest b'
      | [] =>
          let cont := (128, 191)%N in
          if (n <=? 127)%N then utf8_ok [] b'
          else if ((194 <=? n) && (n <=? 223))%N then utf8_ok [cont] b'
          else if (n =? 224)%N then utf8_ok [(160, 191)%N; cont] b'
          else if (n =? 237)%N then utf8_ok [(128, 159)%N; cont] b'
          else if ((225 <=? n) && (n <=? 239))%N then utf8_ok [cont; cont] b'
          else if (n =? 240)%N then utf8_ok [(144, 191)%N; cont; cont] b'
          else if ((241 <=? n) && (n <=? 243))%N then utf8_ok [cont; cont; cont] b'
          else if (n =? 244)%N then utf8_ok [(128, 143)%N; cont; cont] b'
          else false
      end
  end.

Definition bytes_decode (b : string) : Result string :=
  if utf8_ok [] b then Ok b else Raise UnicodeDecodeError.

(** [val.decode()] on an arbitrary value: only bytes have the method. *)
Definition val_decode (v : Val) : Result Val :=
  match v with
  | VBytes b => bind (bytes_decode b) (fun s => Ok (VStr s))
  | _ => Raise AttributeError
  end.

(** [val[i]] for a small non-negative literal index [i]. *)
Definition val_index (v : Val) (i : nat) : Result Val :=
  match v with
  | VTuple l | VList l =>
      match l !! i with Some x => Ok x | None => Raise IndexError end
  | VBytes b =>
      match list_ascii_of_string b !! i with
      | Some c => Ok (VInt (Z.of_N (N_of_ascii c)))
      | None => Raise IndexError
      end
  | VStr s =>
      match list_ascii_of_string s !! i with
      | Some c => Ok (VStr (String c EmptyString))
      | None => Raise IndexError
      end
  | VNone | VInt _ => Raise TypeError
  end.

(** [", ".join(value)] on a list value: every item has to be a str. *)
Fixpoint strs_of (l : list Val) : Result (list string) :=
  match l with
  | [] => Ok []
  | VStr s :: l' => bind (strs_of l') (fun r => Ok (s :: r))
  | _ :: _ => Raise TypeError
  end.

Definition val_join (sep : string) (l : list Val) : Result Val :=
  bind (strs_of l) (fun ss => Ok (VStr (join sep ss))).

(** *** os.path *)

Definition has_char (c : ascii) (s : string) : bool :=
  existsb (Ascii.eqb c) (list_ascii_of_string s).

Definition isabs (p : string) : bool := startswith p "/".

(** [os.path.join(dir, name)] *)
Definition path_join (dir name : string) : string :=
  if isabs name then name
  else if String.eqb dir "" then name
  else if String.eqb (rpartition_tail "/" dir) "" then dir ++ name
  else dir ++ "/" ++ name.

Definition basename (p : string) : string := rpartition_tail "/" p.

(** A directory path as [os.getcwd] gives it: absolute, and without a
    trailing slash unless it is the root. *)
Definition normalized (d : string) : bool :=
  isabs d && (String.eqb d "/" || negb (String.eqb (rpartition_tail "/" d) "")).

(** [s.rpartition(sep)[0]]: what precedes the last [sep], empty when there
    is none. *)
Fixpoint rpartition_head (sep : ascii) (s : string) : string :=
  match s with
  | EmptyString => EmptyString
  | String c s' =>
      if has_char sep s' then String c (rpartition_head sep s')
      else EmptyString
  end.

(** [os.path.dirname(p)]: the head up to the last slash, the root for a
    name in the root.  Paths are taken without doubled slashes, so that the
    head has no trailing slashes left to strip. *)
Definition dirname (p : string) : string :=
  if has_char "/" p then
    match rpartition_head "/" p with
    | EmptyString => "/"
    | h => h
    end
  else "".

Fixpoint drop_dots (s : string) : string :=
  match s with
  | String "." s' => drop_dots s'
  | _ => s
  end.

(** [os.path.splitext(p)[1]]: from the last dot of the last component on,
    leading dots of the component apart. *)
Definition splitext_ext (p : string) : string :=
  let stem := drop_dots (basename p) in
  if has_char "." stem then String "." (rpartition_tail "." stem) else "".

End Py.
Export Py.

(** ** The file system and the image libraries

    A file is described by what the decoders and piexif observe of it: the
    image format its content has (none for a file that is no image), whether
    it is animated, its raster and its EXIF segment.  Paths are plain
    strings, free of [.], [..] and links; a relative path is taken from the
    working directory. *)

Module Sys.

Record Pixmap := {
  px_width : Z;
  px_height : Z;
  px_data : list Z
}.

(** One IFD as piexif loads it: a dict from tag number to value, in
    insertion order. *)
Definition Ifd := list (Z * Val).

(** What [piexif.load] returns. *)
Record ExifDict := {
  ifd_0th : Ifd;
  ifd_Exif : Ifd;
  ifd_GPS : Ifd;
  ifd_Interop : Ifd;
  ifd_1st : Ifd;
  thumbnail : option string
}.

Definition empty_exif : ExifDict :=
  {| ifd_0th := []; ifd_Exif := []; ifd_GPS := []; ifd_Interop := [];
     ifd_1st := []; thumbnail := None |}.

Fixpoint ifd_get (d : Ifd) (tag : Z) : option Val :=
  match d with
  | [] => None
  | (t, v) :: d' => if Z.eqb t tag then Some v else ifd_get d' tag
  end.

(** [d[tag] = v]: replace in place, or append a new entry. *)
Fixpoint ifd_set (d : Ifd) (tag : Z) (v : Val) : Ifd :=
  match d with
  | [] => [(tag, v)]
  | (t, w) :: d' => if Z.eqb t tag then (t, v) :: d' else (t, w) :: ifd_set d' tag v
  end.

Record FileData := {
  fd_format : option string;
  fd_animated : bool;
  fd_pixels : Pixmap;
  fd_exif : option ExifDict
}.

(** The empty file [mkstemp] leaves behind. *)
Definition empty_file : FileData :=
  {| fd_format := None; fd_animated := false;
     fd_pixels := {| px_width := 0; px_height := 0; px_data := [] |};
     fd_exif := None |}.

(** The calls that change the file system, for the journal. *)
Inductive SysCall :=
| Mkstemp (file : string)
| Save (file : string)
| InsertExif (file : string)
| Rename (src dst : string)
| Remove (file : string).

Record FS := {
  files : gmap string FileData;
  dirs : gmap string nat;     (* the directories, each with its device *)
  cwd : string;
  tmpnames : list string;     (* the names mkstemp's generator yields next *)
  journal : list SysCall      (* the changing calls so far, latest last *)
}.

Definition log_call (c : SysCall) (fs : FS) : FS :=
  {| files := files fs; dirs := dirs fs; cwd := cwd fs;
     tmpnames := tmpnames fs; journal := journal fs ++ [c] |}.

Definition set_files (m : gmap string FileData) (fs : FS) : FS :=
  {| files := m; dirs := dirs fs; cwd := cwd fs;
     tmpnames := tmpnames fs; journal := journal fs |}.

Definition set_tmpnames (l : list string) (fs : FS) : FS :=
  {| files := files fs; dirs := dirs fs; cwd := cwd fs;
     tmpnames := l; journal := journal fs |}.

(** The names mkstemp's generator yields are made of letters, digits and
    underscores: neither a slash nor a dot occurs in them. *)
Definition plain_name (n : string) : bool :=
  negb (has_char "/" n) && negb (has_char "." n).

(** What a call made after the temporary file [f] exists may be when the
    job writes to [dst]: no further temporary file; the buffer and the
    EXIF data go into [f] and nowhere else; no rename other than that of
    [f] onto [dst]; nothing is removed but [dst]. *)
Definition later_call (f dst : string) (c : SysCall) : Prop :=
  match c with
  | Mkstemp _ => False
  | Save p | InsertExif p => p = f
  | Rename src dst' => src = f /\ dst' = dst
  | Remove p => p = dst
  end.

(** The calls made between two states of the file system. *)
Definition new_calls (fs fs' : FS) : list SysCall :=
  drop (List.length (journal fs)) (journal fs').

(** [fs'] comes from [fs] by calls that all satisfy [P], in the same
    working directory. *)
Definition grows (P : SysCall -> Prop) (fs fs' : FS) : Prop :=
  cwd fs' = cwd fs /\ exists l, journal fs' = (journal fs ++ l)%list /\ Forall P l.

Definition abspath (fs : FS) (p : string) : string := path_join (cwd fs) p.

Definition getcwd (fs : FS) : string := cwd fs.

Definition read_file (fs : FS) (p : string) : option FileData :=
  files fs !! abspath fs p.

Definition isfile (fs : FS) (p : string) : bool :=
  bool_decide (is_Some (read_file fs p)).

Definition isdir (fs : FS) (p : string) : bool :=
  bool_decide (is_Some (dirs fs !! abspath fs p)).

Definition exists_ (fs : FS) (p : string) : bool := isfile fs p || isdir fs p.

(** [tempfile.mkstemp(dir=dir, suffix=suffix)]: the first candidate name
    that is free becomes an empty file; the handle is closed at once by the
    caller and is left out. *)
Fixpoint mkstemp_inner (dir suffix : string) (names : list string) (fs : FS)
  : Result string * FS :=
  match names with
  | [] => (Raise FileExistsError, set_tmpnames [] fs)
  | name :: rest =>
      let file := path_join dir ("tmp" ++ name ++ suffix) in
      if exists_ fs file then mkstemp_inner dir suffix rest fs
      else (Ok file,
            log_call (Mkstemp file)
              (set_files (<[file := empty_file]> (files fs)) (set_tmpnames rest fs)))
  end.

Definition mkstemp (dir suffix : string) (fs : FS) : Result string * FS :=
  let dir := abspath fs dir in
  if isdir fs dir then mkstemp_inner dir suffix (tmpnames fs) fs
  else (Raise FileNotFoundError, fs).

(** [os.rename(src, dst)] between files: within one device only. *)
Definition rename (src dst : string) (fs : FS) : Result unit * FS :=
  let src := abspath fs src in
  let dst := abspath fs dst in
  match files fs !! src with
  | None => (Raise FileNotFoundError, fs)
  | Some data =>
      if isdir fs dst then (Raise IsADirectoryError, fs)
      else
        match dirs fs !! dirname src, dirs fs !! dirname dst with
        | Some dev_src, Some dev_dst =>
            if Nat.eqb dev_src dev_dst then
              (Ok tt,
               log_call (Rename src dst)
                 (set_files (<[dst := data]> (delete src (files fs))) fs))
            else (Raise OSError, fs)
        | _, _ => (Raise FileNotFoundError, fs)
        end
  end.

(** [os.remove(path)] *)
Definition remove (p : string) (fs : FS) : Result unit * FS :=
  let p := abspath fs p in
  if isdir fs p then (Raise IsADirectoryError, fs)
  else
    match files fs !! p with
    | None => (Raise FileNotFoundError, fs)
    | Some _ => (Ok tt, log_call (Remove p) (set_files (delete p (files fs)) fs))
    end.

(** *** piexif

    The EXIF bytes [piexif.dump] produces stand for the dictionary they
    encode: [dump] and [load] are taken to be inverse to each other. *)

Definition is_jpeg (d : FileData) : bool :=
  match fd_format d with Some f => String.eqb f "jpeg" | None => false end.

Definition is_tiff (d : FileData) : bool :=
  match fd_format d with Some f => String.eqb f "tiff" | None => false end.

(** [piexif.load(filename)] *)
Definition piexif_load (fs : FS) (filename : string) : Result ExifDict :=
  match read_file fs filename with
  | None => Raise FileNotFoundError
  | Some d =>
      if is_jpeg d || is_tiff d then
        Ok (match fd_exif d with Some e => e | None => empty_exif end)
      else Raise InvalidImageDataError
  end.

Definition set_exif (e : ExifDict) (d : FileData) : FileData :=
  {| fd_format := fd_format d; fd_animated := fd_animated d;
     fd_pixels := fd_pixels d; fd_exif := Some e |}.

(** [piexif.insert(exif_bytes, filename)] *)
Definition piexif_insert (e : ExifDict) (filename : string) (fs : FS)
  : Result unit * FS :=
  match read_file fs filename with
  | None => (Raise FileNotFoundError, fs)
  | Some d =>
      if is_jpeg d then
        (Ok tt,
         log_call (InsertExif (abspath fs filename))
           (set_files (<[abspath fs filename := set_exif e d]> (files fs)) fs))
      else (Raise InvalidImageDataError, fs)
  end.

(** [piexif.transplant(src, dest)]: the EXIF segment of [src] replaces the
    one of [dest]; both have to be JPEG and [src] has to have one. *)
Definition piexif_transplant (src dest : string) (fs : FS) : Result unit * FS :=
  match read_file fs src with
  | None => (Raise FileNotFoundError, fs)
  | Some s =>
      if is_jpeg s then
        match fd_exif s with
        | None => (Raise ValueError, fs)
        | Some e => piexif_insert e dest fs
        end
      else (Raise InvalidImageDataError, fs)
  end.

(** *** Qt image reading and writing *)

(** [QImageReader(path).canRead()] *)
Definition canRead (fs : FS) (p : string) : bool :=
  match read_file fs p with
  | Some d => bool_decide (is_Some (fd_format d))
  | None => false
  end.

(** [QImageReader(path).format().data().decode()] *)
Definition reader_format (fs : FS) (p : string) : string :=
  match read_file fs p with
  | Some d => default "" (fd_format d)
  | None => ""
  end.

(** [QImageReader(path).supportsAnimation()] *)
Definition supportsAnimation (fs : FS) (p : string) : bool :=
  match read_file fs p with
  | Some d => fd_animated d
  | None => false
  end.

(** [QImageReader(path).size()], invalid (-1, -1) when nothing can be read. *)
Definition reader_size (fs : FS) (p : string) : Z * Z :=
  match read_file fs p with
  | Some d =>
      match fd_format d with
      | Some _ => (px_width (fd_pixels d), px_height (fd_pixels d))
      | None => (-1, -1)
      end
  | None => (-1, -1)
  end.

(** [QPixmap(path)]: the raster of the file, a null pixmap otherwise. *)
Definition load_pixmap (fs : FS) (p : string) : Pixmap :=
  match read_file fs p with
  | Some d => fd_pixels d
  | None => {| px_width := 0; px_height := 0; px_data := [] |}
  end.

(** [imghdr.what(path)] *)
Definition imghdr_what (fs : FS) (p : string) : Result Val :=
  match read_file fs p with
  | None => Raise (if isdir fs p then IsADirectoryError else FileNotFoundError)
  | Some d => Ok (match fd_format d with Some f => VStr f | None => VNone end)
  end.

(** Modelled from the spec: [vimiv.utils.files] is not under src.
    [files.is_image(path)] holds of a file whose content is a valid image. *)
Definition is_image (fs : FS) (p : string) : bool :=
  match read_file fs p with
  | Some d => bool_decide (is_Some (fd_format d))
  | None => false
  end.

End Sys.
Export Sys.

(** ** vimiv/imutils/exif.py *)

Module Exif.

(** class ExifOrientation *)
Module ExifOrientation.
Definition Unspecified : Z := 0.
Definition Normal : Z := 1.
Definition HorizontalFlip : Z := 2.
Definition Rotation180 : Z := 3.
Definition VerticalFlip : Z := 4.
Definition Rotation90HorizontalFlip : Z := 5.
Definition Rotation90 : Z := 6.
Definition Rotation90VerticalFlip : Z := 7.
Definition Rotation270 : Z := 8.
End ExifOrientation.

(** piexif.ImageIFD and piexif.TYPES *)
Module ImageIFD.
Definition Orientation : Z := 274.
Definition DateTime : Z := 306.
End ImageIFD.

Module TYPES.
Definition Byte : Z := 1.
Definition Ascii : Z := 2.
Definition Short : Z := 3.
Definition Long : Z := 4.
Definition Rational : Z := 5.
Definition SByte : Z := 6.
Definition Undefined : Z := 7.
Definition SShort : Z := 8.
Definition SLong : Z := 9.
Definition SRational : Z := 10.
Definition Float : Z := 11.
Definition DFloat : Z := 12.
End TYPES.

(** The orientation tag of a loaded dict, and of a file as piexif reads it. *)
Definition orientation (d : ExifDict) : option Val :=
  ifd_get (ifd_0th d) ImageIFD.Orientation.

Definition orientation_of (fs : FS) (p : string) : option Val :=
  match piexif_load fs p with
  | Ok d => orientation d
  | Raise _ => None
  end.

(** A lazy sequence of key names: the items it yields and, if iterating
    it fails, the exception that ends it. *)
Record Gen := {
  gen_items : list string;
  gen_end : option Exc
}.

Definition chain (g1 g2 : Gen) : Gen :=
  match gen_end g1 with
  | Some e => g1
  | None => {| gen_items := gen_items g1 ++ gen_items g2; gen_end := gen_end g2 |}
  end.

(** A pyexiv2 tag object: [name], [human_value] where the tag class has the
    attribute (IPTC tags do not), and [raw_value]. *)
Record Exiv2Tag := {
  tag_name : string;
  tag_human_value : option Val;
  tag_raw_value : Val
}.

(** A [pyexiv2.ImageMetadata] object, by what the handler does with it:
    subscripting it with a key and iterating over it. *)
Record ImageMetadata := {
  im_getitem : string -> Result Exiv2Tag;
  im_iter : Result Gen
}.

(** What the module takes from outside the two source files: which of the
    optional libraries import, Python's [str], piexif's tag table and
    serialiser, pyexiv2's objects, and the helpers of [vimiv.utils]. *)
Record Externals := {
  has_pyexiv2 : bool;
  has_piexif : bool;
  py_str : Val -> string;
  TAGS : string -> Z -> option (string * Z);      (* name and type of TAGS[ifd][tag] *)
  piexif_dumpable : ExifDict -> bool;             (* piexif.dump does not raise ValueError *)
  pyexiv2_new : string -> ImageMetadata;          (* ImageMetadata(filename), not read *)
  pyexiv2_read : FS -> string -> Result ImageMetadata;  (* ... after read() *)
  is_hex : string -> bool;                        (* vimiv.utils.is_hex *)
  get_size_file : FS -> string -> Result Val      (* vimiv.utils.files.get_size_file *)
}.

Definition Triple : Type := string * string * Val.

(** *** class _InternalKeyHandler(dict) *)

Inductive Getter :=
| _get_filesize
| _get_xdimension
| _get_ydimension
| _get_filetype.

Record InternalKeyHandler := {
  ik_path : string;
  ik_reader : option string     (* the QImageReader, by the path it is bound to *)
}.

(** The dict the constructor fills. *)
Definition internal_keys : list (string * (string * Getter)) :=
  [ ("vimiv.filesize", ("Vimiv.FileSize", _get_filesize));
    ("vimiv.xdimension", ("Vimiv.XDimension", _get_xdimension));
    ("vimiv.ydimension", ("Vimiv.YDimension", _get_ydimension));
    ("vimiv.filetype", ("Vimiv.FileType", _get_filetype)) ].

Definition new_InternalKeyHandler (path : string) : InternalKeyHandler :=
  {| ik_path := path; ik_reader := None |}.

Fixpoint dict_get {A} (d : list (string * A)) (key : string) : option A :=
  match d with
  | [] => None
  | (k, v) :: d' => if String.eqb k key then Some v else dict_get d' key
  end.

(** property reader *)
Definition reader (h : InternalKeyHandler) : string * InternalKeyHandler :=
  match ik_reader h with
  | Some r => (r, h)
  | None => (ik_path h, {| ik_path := ik_path h; ik_reader := Some (ik_path h) |})
  end.

Section WithExternals.

Context (X : Externals).

Definition call_getter (fs : FS) (g : Getter) (h : InternalKeyHandler)
  : Result Val * InternalKeyHandler :=
  match g with
  | _get_filesize => (get_size_file X fs (ik_path h), h)
  | _get_filetype => (imghdr_what fs (ik_path h), h)
  | _get_xdimension =>
      let (r, h') := reader h in (Ok (VInt (fst (reader_size fs r))), h')
  | _get_ydimension =>
      let (r, h') := reader h in (Ok (VInt (snd (reader_size fs r))), h')
  end.

(** __getitem__: unpacking the [None] that [dict.get] gives for an unknown
    key is a TypeError. *)
Definition internal_getitem (fs : FS) (h : InternalKeyHandler) (key : string)
  : Result Triple * InternalKeyHandler :=
  match dict_get internal_keys (lower key) with
  | None => (Raise TypeError, h)
  | Some (name, func) =>
      let (r, h') := call_getter fs func h in
      (bind r (fun v => Ok (name, name, v)), h')
  end.

Definition internal_get_keys : Gen :=
  {| gen_items := map (fun kv => fst (snd kv)) internal_keys; gen_end := None |}.

(** *** The external handlers

    The three classes, each with the attributes its instances hold. *)
Inductive HandlerClass :=
| _ExternalKeyHandlerBase
| _ExternalKeyHandlerPiexif
| ExternalKeyHandler_pyexiv2.

Inductive ExternalKeyHandler :=
| Base (filename : string)
| Piexif (filename : string) (_metadata : option ExifDict)
| Pyexiv2 (filename : string) (_metadata : ImageMetadata).

Definition MESSAGE_SUFFIX (h : ExternalKeyHandler) : string :=
  match h with
  | Base _ => ". Please install pyexiv2 or piexif for exif support."
  | Piexif _ _ => " by piexif."
  | Pyexiv2 _ _ => " by pyexiv2."
  end.

(** raise_exception: the message is logged once and raised. *)
Definition raise_exception {A} (h : ExternalKeyHandler) (operation : string) : Result A :=
  Raise (UnsupportedExifOperation (operation ++ " is not supported" ++ MESSAGE_SUFFIX h)).

(** copy_exif is defined by the base class only. *)
Definition copy_exif (h : ExternalKeyHandler) (dest : string) (reset_orientation : bool)
  : Result unit :=
  raise_exception h "Copying exif data".

(** **** class _ExternalKeyHandlerPiexif *)

Definition new_Piexif (fs : FS) (filename : string) : Result ExternalKeyHandler :=
  match piexif_load fs filename with
  | Ok d => Ok (Piexif filename (Some d))
  | Raise e =>
      if is_FileNotFoundError e then Ok (Piexif filename None) else Raise e
  end.

(** The keys of the loaded dict in the order piexif builds it; the loops
    skip ["thumbnail"]. *)
Definition ifds (d : ExifDict) : list (string * Ifd) :=
  [ ("0th", ifd_0th d); ("Exif", ifd_Exif d); ("GPS", ifd_GPS d);
    ("Interop", ifd_Interop d); ("1st", ifd_1st d) ].

Inductive Scan :=
| Found (t : Triple)
| Next
| Failed (e : Exc).

Definition int_types : list Z :=
  [TYPES.Byte; TYPES.Short; TYPES.Long; TYPES.SByte; TYPES.SShort; TYPES.SLong;
   TYPES.Float; TYPES.DFloat].

Definition in_types (t : Z) (l : list Z) : bool := existsb (Z.eqb t) l.

(** The body of the inner loop for one tag. *)
Definition piexif_tag (ifd key : string) (tag : Z) (val : Val) : Scan :=
  match TAGS X ifd tag with
  | None => Failed KeyError
  | Some (keyname, keytype) =>
      if negb (String.eqb keyname key) then Next
      else if in_types keytype int_types then
        Found (keyname, keyname, VStr (py_str X val))
      else if in_types keytype [TYPES.Ascii; TYPES.Undefined] then
        match val_decode val with
        | Ok v => Found (keyname, keyname, v)
        | Raise e => Failed e
        end
      else if in_types keytype [TYPES.Rational; TYPES.SRational] then
        match val_index val 0, val_index val 1 with
        | Ok a, Ok b => Found (keyname, keyname, VStr (py_str X a ++ "/" ++ py_str X b))
        | Raise e, _ => Failed e
        | _, Raise e => Failed e
        end
      else Next
  end.

Fixpoint piexif_tags (ifd key : string) (tags : Ifd) : Scan :=
  match tags with
  | [] => Next
  | (tag, val) :: rest =>
      match piexif_tag ifd key tag val with
      | Next => piexif_tags ifd key rest
      | r => r
      end
  end.

Fixpoint piexif_ifds (key : string) (l : list (string * Ifd)) : Scan :=
  match l with
  | [] => Next
  | (ifd, tags) :: rest =>
      match piexif_tags ifd key tags with
      | Next => piexif_ifds key rest
      | r => r
      end
  end.

Definition piexif_fetch_key (_metadata : option ExifDict) (base_key : string)
  : Result (option Triple) :=
  let key := rpartition_tail "." base_key in
  match _metadata with
  | None => Raise TypeError
  | Some d =>
      match piexif_ifds key (ifds d) with
      | Found t => Ok (Some t)
      | Next => Ok None
      | Failed e =>
          if is_InvalidImageDataError e || is_KeyError e then Ok None else Raise e
      end
  end.

(** The names the generator yields, up to the first tag the table lacks. *)
Fixpoint piexif_names (l : list (string * Z)) : Gen :=
  match l with
  | [] => {| gen_items := []; gen_end := None |}
  | (ifd, tag) :: rest =>
      match TAGS X ifd tag with
      | None => {| gen_items := []; gen_end := Some KeyError |}
      | Some (name, _) =>
          let g := piexif_names rest in
          {| gen_items := name :: gen_items g; gen_end := gen_end g |}
      end
  end.

(** The pairs of IFD and tag the two nested [for] clauses run through. *)
Definition piexif_entries (d : ExifDict) : list (string * Z) :=
  List.concat (map (fun it => map (fun tv => (fst it, fst tv)) (snd it)) (ifds d)).

Definition piexif_get_keys (_metadata : option ExifDict) : Result Gen :=
  match _metadata with
  | None => Raise TypeError
  | Some d => Ok (piexif_names (piexif_entries d))
  end.

Definition set_0th (i : Ifd) (d : ExifDict) : ExifDict :=
  {| ifd_0th := i; ifd_Exif := ifd_Exif d; ifd_GPS := ifd_GPS d;
     ifd_Interop := ifd_Interop d; ifd_1st := ifd_1st d; thumbnail := thumbnail d |}.

Definition reset_orientation_tag (d : ExifDict) : ExifDict :=
  set_0th (ifd_set (ifd_0th d) ImageIFD.Orientation (VInt ExifOrientation.Normal)) d.

(** copy_metadata: the assignment changes the dict the handler holds;
    InvalidImageDataError and ValueError end the copy silently. *)
Definition piexif_copy_metadata (filename : string) (_metadata : option ExifDict)
    (dest : string) (reset_orientation : bool) (fs : FS)
  : Result unit * ExternalKeyHandler * FS :=
  match _metadata with
  | None => (Raise TypeError, Piexif filename None, fs)
  | Some d =>
      let d' := if reset_orientation then reset_orientation_tag d else d in
      let h' := Piexif filename (Some d') in
      if piexif_dumpable X d' then
        let (r, fs') := piexif_insert d' dest fs in
        match r with
        | Ok _ => (Ok tt, h', fs')
        | Raise e => if is_ValueError e then (Ok tt, h', fs') else (Raise e, h', fs')
        end
      else (Ok tt, h', fs)
  end.

Definition piexif_get_date_time (_metadata : option ExifDict) : Result Val :=
  match _metadata with
  | None => Raise TypeError
  | Some d =>
      match ifd_get (ifd_0th d) ImageIFD.DateTime with
      | None => Ok (VStr "")
      | Some v =>
          match val_decode v with
          | Ok s => Ok s
          | Raise e =>
              if is_InvalidImageDataError e || is_FileNotFoundError e || is_KeyError e
              then Ok (VStr "") else Raise e
          end
      end
  end.

(** **** class ExternalKeyHandler (pyexiv2)

    Its copy_metadata hands the whole copy to the library
    ([ImageMetadata.copy], [write]) and is not embedded. *)

Definition new_Pyexiv2 (fs : FS) (filename : string) : Result ExternalKeyHandler :=
  match pyexiv2_read X fs filename with
  | Ok md => Ok (Pyexiv2 filename md)
  | Raise e =>
      if is_FileNotFoundError e then Ok (Pyexiv2 filename (pyexiv2_new X filename))
      else Raise e
  end.

(** [human_value], or [raw_value] when the tag has no such attribute; a
    list is joined. *)
Definition tag_value (t : Exiv2Tag) : Result Val :=
  match tag_human_value t with
  | Some v => Ok v
  | None =>
      match tag_raw_value t with
      | VList l => val_join ", " l
      | v => Ok v
      end
  end.

(** The body of the [try] for one candidate key. *)
Definition pyexiv2_candidate (md : ImageMetadata) (key : string) : Result Triple :=
  bind (im_getitem md key) (fun t =>
  bind (tag_value t) (fun v => Ok (key, tag_name t, v))).

Fixpoint pyexiv2_try (md : ImageMetadata) (base_key : string) (prefixes : list string)
  : Result (option Triple) :=
  match prefixes with
  | [] => Ok None
  | prefix :: rest =>
      match pyexiv2_candidate md (prefix ++ base_key) with
      | Ok t => Ok (Some t)
      | Raise e => if is_KeyError e then pyexiv2_try md base_key rest else Raise e
      end
  end.

Definition prefixes : list string := [""; "Exif.Image."; "Exif.Photo."].

Definition pyexiv2_fetch_key (md : ImageMetadata) (base_key : string)
  : Result (option Triple) :=
  pyexiv2_try md base_key prefixes.

Definition pyexiv2_get_keys (md : ImageMetadata) : Result Gen :=
  bind (im_iter md) (fun g =>
    Ok {| gen_items :=
            List.filter (fun key => negb (is_hex X (rpartition_tail "." key)))
              (gen_items g);
          gen_end := gen_end g |}).

Definition pyexiv2_get_date_time (md : ImageMetadata) : Result Val :=
  match im_getitem md "Exif.Image.DateTime" with
  | Ok t => Ok (tag_raw_value t)
  | Raise e => if is_KeyError e then Ok (VStr "") else Raise e
  end.

(** **** Method dispatch over the three classes *)

Definition ext_fetch_key (h : ExternalKeyHandler) (base_key : string)
  : Result (option Triple) :=
  match h with
  | Base _ => raise_exception h "Getting formatted keys"
  | Piexif _ md => piexif_fetch_key md base_key
  | Pyexiv2 _ md => pyexiv2_fetch_key md base_key
  end.

Definition ext_get_keys (h : ExternalKeyHandler) : Result Gen :=
  match h with
  | Base _ => raise_exception h "Getting exif keys"
  | Piexif _ md => piexif_get_keys md
  | Pyexiv2 _ md => pyexiv2_get_keys md
  end.

Definition get_date_time (h : ExternalKeyHandler) : Result Val :=
  match h with
  | Base _ => raise_exception h "Retrieving exif date-time"
  | Piexif _ md => piexif_get_date_time md
  | Pyexiv2 _ md => pyexiv2_get_date_time md
  end.

(** check_external_dependancy: the decorated class if pyexiv2 imports, the
    piexif class if only piexif does, the base class otherwise. *)
Definition check_external_dependancy (handler : HandlerClass) : HandlerClass :=
  if has_pyexiv2 X then handler
  else if has_piexif X then _ExternalKeyHandlerPiexif
  else _ExternalKeyHandlerBase.

(** The class the name ExternalKeyHandler is bound to after decoration. *)
Definition ExternalKeyHandler_class : HandlerClass :=
  check_external_dependancy ExternalKeyHandler_pyexiv2.

(** [ExternalKeyHandler(filename)] *)
Definition new_ExternalKeyHandler (fs : FS) (filename : string)
  : Result ExternalKeyHandler :=
  match ExternalKeyHandler_class with
  | ExternalKeyHandler_pyexiv2 => new_Pyexiv2 fs filename
  | _ExternalKeyHandlerPiexif => new_Piexif fs filename
  | _ExternalKeyHandlerBase => Ok (Base filename)
  end.

Definition has_exif_support : bool :=
  match ExternalKeyHandler_class with
  | _ExternalKeyHandlerBase => false
  | _ => true
  end.

(** *** class MetadataHandler *)

Record MetadataHandler := {
  filename : string;
  _int_handler : option InternalKeyHandler;
  _ext_handler : option ExternalKeyHandler
}.

Definition new_MetadataHandler (filename : string) : MetadataHandler :=
  {| filename := filename; _int_handler := None; _ext_handler := None |}.

Definition set_int (ih : InternalKeyHandler) (h : MetadataHandler) : MetadataHandler :=
  {| filename := filename h; _int_handler := Some ih; _ext_handler := _ext_handler h |}.

Definition set_ext (eh : ExternalKeyHandler) (h : MetadataHandler) : MetadataHandler :=
  {| filename := filename h; _int_handler := _int_handler h; _ext_handler := Some eh |}.

(** property _internal_handler *)
Definition _internal_handler (h : MetadataHandler) : InternalKeyHandler * MetadataHandler :=
  match _int_handler h with
  | Some ih => (ih, h)
  | None => let ih := new_InternalKeyHandler (filename h) in (ih, set_int ih h)
  end.

(** property _external_handler: a constructor that raises leaves the
    attribute unset. *)
Definition _external_handler (fs : FS) (h : MetadataHandler)
  : Result ExternalKeyHandler * MetadataHandler :=
  match _ext_handler h with
  | Some eh => (Ok eh, h)
  | None =>
      match new_ExternalKeyHandler fs (filename h) with
      | Ok eh => (Ok eh, set_ext eh h)
      | Raise e => (Raise e, h)
      end
  end.

(** fetch_key.  [None] stands for Python's None, which the external
    handlers return for a key they do not find. *)
Definition fetch_key (fs : FS) (h : MetadataHandler) (key : string)
  : Result (option Triple) * MetadataHandler :=
  if startswith (lower key) "vimiv" then
    let (ih, h1) := _internal_handler h in
    let (r, ih') := internal_getitem fs ih key in
    (bind r (fun t => Ok (Some t)), set_int ih' h1)
  else
    let (re, h1) := _external_handler fs h in
    match re with
    | Ok eh => (ext_fetch_key eh key, h1)
    | Raise e => (Raise e, h1)
    end.

(** A method of the handler that resolves one key. *)
Definition KeyMethod : Type :=
  FS -> MetadataHandler -> string -> Result (option Triple) * MetadataHandler.

(** The names an instance of the class has: the three attributes set by
    the constructor and what the class body defines. *)
Definition attributes : list string :=
  [ "filename"; "_int_handler"; "_ext_handler";
    "_internal_handler"; "_external_handler";
    "fetch_keys"; "get_keys"; "fetch_key" ].

(** [self.<name>(base_key)]: looking up a name the instance does not have
    is an AttributeError; of the names it has only fetch_key takes a key
    and gives a triple. *)
Definition call_attribute (name : string) : KeyMethod :=
  fun fs h key =>
    if String.eqb name "fetch_key" then fetch_key fs h key
    else if existsb (String.eqb name) attributes then (Raise TypeError, h)
    else (Raise AttributeError, h).

(** One round of the loop of fetch_keys, with the method it calls as a
    parameter: a triple is stored, None cannot be unpacked (TypeError), and
    KeyError and TypeError are swallowed. *)
Definition fetch_keys_step (resolve : KeyMethod) (fs : FS) (base_key : string)
    (st : gmap string (string * Val) * MetadataHandler)
  : Result (gmap string (string * Val) * MetadataHandler) :=
  let (metadata, h) := st in
  let base_key := strip base_key in
  let (r, h') := resolve fs h base_key in
  match r with
  | Ok (Some (key, key_name, key_value)) =>
      Ok (<[key := (key_name, key_value)]> metadata, h')
  | Ok None => Ok (metadata, h')
  | Raise e =>
      if is_KeyError e || is_TypeError e then Ok (metadata, h') else Raise e
  end.

Fixpoint fetch_keys_loop (resolve : KeyMethod) (fs : FS) (desired_keys : list string)
    (st : gmap string (string * Val) * MetadataHandler)
  : Result (gmap string (string * Val) * MetadataHandler) :=
  match desired_keys with
  | [] => Ok st
  | base_key :: rest =>
      bind (fetch_keys_step resolve fs base_key st) (fetch_keys_loop resolve fs rest)
  end.

(** fetch_keys: the loop calls [self._fetch_key]. *)
Definition fetch_keys (fs : FS) (h : MetadataHandler) (desired_keys : list string)
  : Result (gmap string (string * Val) * MetadataHandler) :=
  fetch_keys_loop (call_attribute "_fetch_key") fs desired_keys (∅, h).

(** get_keys: both arguments of [itertools.chain] are evaluated before the
    chain is built. *)
Definition get_keys (fs : FS) (h : MetadataHandler) : Result Gen * MetadataHandler :=
  let (ih, h1) := _internal_handler h in
  let g1 := internal_get_keys in
  let (re, h2) := _external_handler fs h1 in
  match re with
  | Ok eh => (bind (ext_get_keys eh) (fun g2 => Ok (chain g1 g2)), h2)
  | Raise e => (Raise e, h2)
  end.

End WithExternals.

End Exif.

(** ** vimiv/imutils/imfile_handler.py *)

Module Imfile.

(** The objects a pixmap role can refer to. *)
Inductive QObj :=
| QPixmap (px : Pixmap)
| QMovie (path : string).

Definition isinstance_QPixmap (o : option QObj) : bool :=
  match o with Some (QPixmap _) => true | _ => false end.

(** class Pixmaps: each role holds a reference, [None] for Python's None,
    otherwise the address of an object on the heap. *)
Record Pixmaps := {
  current : option nat;
  original : option nat;
  transformed : option nat
}.

(** Modelled from the spec: [vimiv.imutils.imtransform] and
    [vimiv.imutils.immanipulate] are not under src.  Each keeps one dirty
    flag, which [changed()] reads; [reset()] discards the pending
    transformations. *)
Record Transform := { transform_dirty : bool }.
Record Manipulator := { manipulate_dirty : bool }.

Definition transform_changed (t : Transform) : bool := transform_dirty t.
Definition transform_reset (t : Transform) : Transform := {| transform_dirty := false |}.
Definition manipulate_changed (m : Manipulator) : bool := manipulate_dirty m.

Inductive Signal :=
| svg_loaded (path : string)
| movie_loaded (obj : option nat)
| pixmap_loaded (obj : option nat)
| pixmap_updated (obj : option nat).

Inductive LogRecord :=
| Debug (msg : string)
| Info (msg : string)
| Error (msg : string).

(** class WriteImageRunner *)
Record WriteImageRunner := {
  rn_pixmap : option QObj;
  rn_path : string
}.

(** class ImageFileHandler, with the heap its pixmaps live on, the runners
    handed to the thread pool that have not run yet, and the signals
    emitted so far. *)
Record ImageFileHandler := {
  _pixmaps : Pixmaps;
  heap : list QObj;
  transform : Transform;
  manipulate : Manipulator;
  _path : string;
  _pool : list WriteImageRunner;
  emitted : list Signal;
  logged : list LogRecord
}.

(** What the module takes from its surroundings: whether piexif and
    QSvgWidget import, the autowrite setting, and the format Qt writes for
    a file suffix, if it has a writer for it. *)
Record Env := {
  piexif : bool;
  QSvgWidget : bool;
  IMAGE_AUTOWRITE : bool;
  writer_format : string -> option string
}.

Definition new_ImageFileHandler : ImageFileHandler :=
  {| _pixmaps := {| current := None; original := None; transformed := None |};
     heap := []; transform := {| transform_dirty := false |};
     manipulate := {| manipulate_dirty := false |};
     _path := ""; _pool := []; emitted := []; logged := [] |}.

Definition deref (s : ImageFileHandler) (r : option nat) : option QObj :=
  match r with Some a => heap s !! a | None => None end.

Definition set_pixmaps (p : Pixmaps) (s : ImageFileHandler) : ImageFileHandler :=
  {| _pixmaps := p; heap := heap s; transform := transform s;
     manipulate := manipulate s; _path := _path s; _pool := _pool s;
     emitted := emitted s; logged := logged s |}.

Definition set_path (p : string) (s : ImageFileHandler) : ImageFileHandler :=
  {| _pixmaps := _pixmaps s; heap := heap s; transform := transform s;
     manipulate := manipulate s; _path := p; _pool := _pool s;
     emitted := emitted s; logged := logged s |}.

Definition emit (sig : Signal) (s : ImageFileHandler) : ImageFileHandler :=
  {| _pixmaps := _pixmaps s; heap := heap s; transform := transform s;
     manipulate := manipulate s; _path := _path s; _pool := _pool s;
     emitted := emitted s ++ [sig]; logged := logged s |}.

Definition log (r : LogRecord) (s : ImageFileHandler) : ImageFileHandler :=
  {| _pixmaps := _pixmaps s; heap := heap s; transform := transform s;
     manipulate := manipulate s; _path := _path s; _pool := _pool s;
     emitted := emitted s; logged := logged s ++ [r] |}.

(** A constructor call: the new object gets the next free address. *)
Definition alloc (o : QObj) (s : ImageFileHandler) : nat * ImageFileHandler :=
  (List.length (heap s),
   {| _pixmaps := _pixmaps s; heap := heap s ++ [o]; transform := transform s;
      manipulate := manipulate s; _path := _path s; _pool := _pool s;
      emitted := emitted s; logged := logged s |}).

(** _pool.start(runner) *)
Definition pool_start (r : WriteImageRunner) (s : ImageFileHandler) : ImageFileHandler :=
  {| _pixmaps := _pixmaps s; heap := heap s; transform := transform s;
     manipulate := manipulate s; _path := _path s; _pool := _pool s ++ [r];
     emitted := emitted s; logged := logged s |}.

(** _reset *)
Definition _reset (s : ImageFileHandler) : ImageFileHandler :=
  {| _pixmaps := _pixmaps s; heap := heap s; transform := transform_reset (transform s);
     manipulate := manipulate s; _path := _path s; _pool := _pool s;
     emitted := emitted s; logged := logged s |}.

(** _set_original *)
Definition _set_original (pixmap : option nat) (s : ImageFileHandler) : ImageFileHandler :=
  set_pixmaps {| current := pixmap; original := pixmap; transformed := pixmap |} s.

(** update_pixmap *)
Definition update_pixmap (pixmap : option nat) (s : ImageFileHandler) : ImageFileHandler :=
  emit (pixmap_updated pixmap)
    (set_pixmaps {| current := pixmap; original := original (_pixmaps s);
                    transformed := transformed (_pixmaps s) |} s).

(** update_transformed *)
Definition update_transformed (pixmap : option nat) (s : ImageFileHandler)
  : ImageFileHandler :=
  update_pixmap pixmap
    (set_pixmaps {| current := current (_pixmaps s); original := original (_pixmaps s);
                    transformed := pixmap |} s).

(** write_pixmap: the runner is handed to the pool, then _reset is called. *)
Definition write_pixmap (pixmap : option nat) (path : string) (s : ImageFileHandler)
  : ImageFileHandler :=
  let runner := {| rn_pixmap := deref s pixmap; rn_path := path |} in
  _reset (pool_start runner s).

(** write; [imstorage_current] is what [imstorage.current()] returns. *)
Definition write (path : list string) (imstorage_current : string) (s : ImageFileHandler)
  : ImageFileHandler :=
  let path := match path with [] => imstorage_current | _ => join " " path end in
  write_pixmap (current (_pixmaps s)) path s.

Section WithEnv.

Context (E : Env).

(** _maybe_write *)
Definition _maybe_write (path : string) (s : ImageFileHandler) : ImageFileHandler :=
  if negb (IMAGE_AUTOWRITE E) then _reset s
  else if transform_changed (transform s) || manipulate_changed (manipulate s)
  then write_pixmap (current (_pixmaps s)) path s
  else s.

(** _load *)
Definition _load (fs : FS) (path : string) (s : ImageFileHandler) : ImageFileHandler :=
  if negb (canRead fs path) then log (Error ("Cannot read image " ++ path)) s
  else
    let s' :=
      if String.eqb (reader_format fs path) "svg" && QSvgWidget E then
        emit (svg_loaded path) (_set_original None s)
      else if supportsAnimation fs path then
        let (a, s1) := alloc (QMovie path) s in
        let s2 := _set_original (Some a) s1 in
        emit (movie_loaded (current (_pixmaps s2))) s2
      else
        let (a, s1) := alloc (QPixmap (load_pixmap fs path)) s in
        let s2 := _set_original (Some a) s1 in
        emit (pixmap_loaded (current (_pixmaps s2))) s2
    in set_path path s'.

(** _on_new_image_opened *)
Definition _on_new_image_opened (fs : FS) (path : string) (s : ImageFileHandler)
  : ImageFileHandler :=
  _load fs path (_maybe_write (_path s) s).

(** *** WriteImageRunner *)

(** _can_write *)
Definition _can_write (r : WriteImageRunner) (fs : FS) : Result unit :=
  if negb (isinstance_QPixmap (rn_pixmap r)) then
    Raise (WriteError "Cannot write animations")
  else if exists_ fs (rn_path r) then
    if negb (canRead fs (rn_path r)) then
      Raise (WriteError ("Path '" ++ rn_path r ++ "' exists and is not an image"))
    else Ok tt
  else Ok tt.

Definition isNull (px : Pixmap) : bool :=
  (px_width px =? 0) || (px_height px =? 0).

(** [pixmap.save(filename)]: the format follows the suffix; without a
    writer for it, or for a null pixmap, nothing is written.  The result
    of the call is not looked at. *)
Definition save (pixmap : option QObj) (filename : string) (fs : FS) : FS :=
  match pixmap with
  | Some (QPixmap px) =>
      match writer_format E (splitext_ext filename) with
      | Some fmt =>
          if isNull px || negb (isdir fs (dirname (abspath fs filename))) then fs
          else
            log_call (Save (abspath fs filename))
              (set_files
                 (<[abspath fs filename :=
                      {| fd_format := Some fmt; fd_animated := false;
                         fd_pixels := px; fd_exif := None |}]> (files fs)) fs)
      | None => fs
      end
  | _ => fs
  end.

(** _copy_exif *)
Definition _copy_exif (src dest : string) (fs : FS) : Result unit * FS :=
  let (r, fs') := piexif_transplant src dest fs in
  match r with
  | Raise e => if is_InvalidImageDataError e then (Ok tt, fs') else (Raise e, fs')
  | Ok _ => (Ok tt, fs')
  end.

(** The rest of _write once the temporary file has its content. *)
Definition _write_commit (r : WriteImageRunner) (filename : string) (fs : FS)
  : Result unit * FS :=
  let (rr, fs1) := rename filename (rn_path r) fs in
  match rr with
  | Raise e => (Raise e, fs1)
  | Ok _ =>
      if negb (isfile fs1 (rn_path r)) then
        (Raise (WriteError "File not written, unknown exception"), fs1)
      else if negb (is_image fs1 (rn_path r)) then
        let (rm, fs2) := remove (rn_path r) fs1 in
        match rm with
        | Raise e => (Raise e, fs2)
        | Ok _ =>
            (Raise (WriteError "No valid image written. Is the extention valid?"), fs2)
        end
      else (Ok tt, fs1)
  end.

(** _write *)
Definition _write (r : WriteImageRunner) (fs : FS) : Result unit * FS :=
  let ext := splitext_ext (rn_path r) in
  let (rt, fs1) := mkstemp (getcwd fs) ext fs in
  match rt with
  | Raise e => (Raise e, fs1)
  | Ok filename =>
      let fs2 := save (rn_pixmap r) filename fs1 in
      if piexif E then
        let (rc, fs3) := _copy_exif (rn_path r) filename fs2 in
        match rc with
        | Raise e => (Raise e, fs3)
        | Ok _ => _write_commit r filename fs3
        end
      else _write_commit r filename fs2
  end.

(** [str(e)] of the exception the handler logs. *)
Definition exc_str (e : Exc) : string :=
  match e with WriteError msg => msg | _ => "" end.

(** run: a WriteError is logged, any other exception leaves the thread. *)
Definition run (r : WriteImageRunner) (fs : FS) : Result unit * FS * list LogRecord :=
  let l0 := [Info ("Saving " ++ rn_path r ++ "...")] in
  match _can_write r fs with
  | Raise e =>
      if is_WriteError e then (Ok tt, fs, (l0 ++ [Error (exc_str e)])%list)
      else (Raise e, fs, l0)
  | Ok _ =>
      let l1 := (l0 ++ [Debug "Image is writable"])%list in
      let (rw, fs') := _write r fs in
      match rw with
      | Ok _ => (Ok tt, fs', (l1 ++ [Info ("Saved " ++ rn_path r)])%list)
      | Raise e =>
          if is_WriteError e then (Ok tt, fs', (l1 ++ [Error (exc_str e)])%list)
          else (Raise e, fs', l1)
      end
  end.

(** _pool.waitForDone(): the queued runners run, here one after another. *)
Fixpoint run_all (rs : list WriteImageRunner) (fs : FS) : FS * list LogRecord :=
  match rs with
  | [] => (fs, [])
  | r :: rest =>
      let '(_, fs', l) := run r fs in
      let (fs'', l') := run_all rest fs' in
      (fs'', (l ++ l')%list)
  end.

Definition waitForDone (fs : FS) (s : ImageFileHandler) : ImageFileHandler * FS :=
  let (fs', l) := run_all (_pool s) fs in
  ({| _pixmaps := _pixmaps s; heap := heap s; transform := transform s;
      manipulate := manipulate s; _path := _path s; _pool := [];
      emitted := emitted s; logged := logged s ++ l |}, fs').

(** _on_quit *)
Definition _on_quit (fs : FS) (s : ImageFileHandler) : ImageFileHandler * FS :=
  waitForDone fs (_maybe_write (_path s) s).

End WithEnv.

End Imfile.

(** ** What a write leaves behind *)

Module Outcome.

Import Imfile.

(** The EXIF data the written file ends up with: those of the file that
    was at the destination, when piexif is at hand and both that file and
    the new one are JPEG. *)
Definition expected_exif (E : Env) (fs : FS) (r : WriteImageRunner) (fmt : string)
  : option ExifDict :=
  if piexif E && String.eqb fmt "jpeg" then
    match read_file fs (rn_path r) with
    | Some d => if is_jpeg d then fd_exif d else None
    | None => None
    end
  else None.

(** The file [QPixmap.save] writes. *)
Definition image_file (fmt : string) (px : Pixmap) (exif : option ExifDict) : FileData :=
  {| fd_format := Some fmt; fd_animated := false; fd_pixels := px; fd_exif := exif |}.

End Outcome.


(** ** Concrete files and environments *)

Module Fixtures.

Import Exif Imfile.

Definition photo_exif : ExifDict :=
  {| ifd_0th := [(ImageIFD.Orientation, VInt ExifOrientation.Rotation90);
                 (ImageIFD.DateTime, VBytes "2020:01:01 10:00:00")];
     ifd_Exif := []; ifd_GPS := []; ifd_Interop := []; ifd_1st := [];
     thumbnail := None |}.

Definition photo_pixels : Pixmap :=
  {| px_width := 2; px_height := 1; px_data := [10; 20] |}.

Definition rotated_pixels : Pixmap :=
  {| px_width := 1; px_height := 2; px_data := [10; 20] |}.

Definition photo : FileData :=
  {| fd_format := Some "jpeg"; fd_animated := false;
     fd_pixels := photo_pixels; fd_exif := Some photo_exif |}.

Definition clip : FileData :=
  {| fd_format := Some "gif"; fd_animated := true;
     fd_pixels := photo_pixels; fd_exif := None |}.

(** A home directory on device 1, a stick mounted on device 2. *)
Definition disk : FS :=
  {| files := {[ "/home/u/photo.jpg" := photo; "/home/u/clip.gif" := clip;
                 "/mnt/usb/old.jpg" := photo ]};
     dirs := {[ "/" := 1%nat; "/home" := 1%nat; "/home/u" := 1%nat;
                "/mnt" := 1%nat; "/mnt/usb" := 2%nat ]};
     cwd := "/home/u";
     tmpnames := ["k3x9a_b2"; "q7w1e_z0"];
     journal := [] |}.

Definition qt : string -> option string :=
  fun suffix =>
    if String.eqb suffix ".jpg" then Some "jpeg"
    else if String.eqb suffix ".jpeg" then Some "jpeg"
    else if String.eqb suffix ".png" then Some "png"
    else None.

Definition with_piexif : Env :=
  {| piexif := true; QSvgWidget := false; IMAGE_AUTOWRITE := true;
     writer_format := qt |}.

(** No pyexiv2 and no piexif: nothing of the two libraries is ever called. *)
Definition unread : ImageMetadata :=
  {| im_getitem := fun _ => Raise OSError; im_iter := Raise OSError |}.

Definition no_backend : Externals :=
  {| has_pyexiv2 := false; has_piexif := false;
     py_str := fun _ => "";
     TAGS := fun _ _ => None;
     piexif_dumpable := fun _ => true;
     pyexiv2_new := fun _ => unread;
     pyexiv2_read := fun _ _ => Raise OSError;
     is_hex := fun _ => false;
     get_size_file := fun _ _ => Ok (VStr "4.0K") |}.

(** Python's [str] on the values the fixtures hold. *)
Definition str_of (v : Val) : string :=
  match v with
  | VNone => "None"
  | VInt z => pretty z
  | VStr s => s
  | VBytes _ | VTuple _ | VList _ => ""
  end.

(** The entries of piexif's table for the tags of the photo. *)
Definition tags (ifd : string) (tag : Z) : option (string * Z) :=
  if String.eqb ifd "0th" || String.eqb ifd "1st" then
    if tag =? ImageIFD.Orientation then Some ("Orientation", TYPES.Short)
    else if tag =? ImageIFD.DateTime then Some ("DateTime", TYPES.Ascii)
    else None
  else None.

Definition hex_name (s : string) : bool := startswith s "0x".

(** piexif alone. *)
Definition piexif_only : Externals :=
  {| has_pyexiv2 := false; has_piexif := true;
     py_str := str_of;
     TAGS := tags;
     piexif_dumpable := fun _ => true;
     pyexiv2_new := fun _ => unread;
     pyexiv2_read := fun _ _ => Raise OSError;
     is_hex := hex_name;
     get_size_file := fun _ _ => Ok (VStr "4.0K") |}.

(** The photo as pyexiv2 presents it: two EXIF tags in the Image group,
    one in the Photo group, an unnamed one, and IPTC keywords. *)
Definition photo_tags : list (string * Exiv2Tag) :=
  [ ("Exif.Image.Orientation",
     {| tag_name := "Orientation"; tag_human_value := Some (VStr "right, top");
        tag_raw_value := VStr "6" |});
    ("Exif.Image.DateTime",
     {| tag_name := "DateTime"; tag_human_value := Some (VStr "2020:01:01 10:00:00");
        tag_raw_value := VStr "2020:01:01 10:00:00" |});
    ("Exif.Photo.FNumber",
     {| tag_name := "FNumber"; tag_human_value := Some (VStr "F2.8");
        tag_raw_value := VStr "28/10" |});
    ("Exif.Image.0x9999",
     {| tag_name := "0x9999"; tag_human_value := Some (VStr "1");
        tag_raw_value := VStr "1" |});
    ("Iptc.Application2.Keywords",
     {| tag_name := "Keywords"; tag_human_value := None;
        tag_raw_value := VList [VStr "sea"; VStr "sun"] |}) ].

Definition photo_md : ImageMetadata :=
  {| im_getitem := fun key =>
       match dict_get photo_tags key with
       | Some t => Ok t
       | None => Raise KeyError
       end;
     im_iter := Ok {| gen_items := map fst photo_tags; gen_end := None |} |}.

(** Metadata without any tag. *)
Definition no_tags : ImageMetadata :=
  {| im_getitem := fun _ => Raise KeyError;
     im_iter := Ok {| gen_items := []; gen_end := None |} |}.

Definition with_pyexiv2 : Externals :=
  {| has_pyexiv2 := true; has_piexif := false;
     py_str := str_of;
     TAGS := tags;
     piexif_dumpable := fun _ => true;
     pyexiv2_new := fun _ => unread;
     pyexiv2_read := fun fs p =>
       if isfile fs p then Ok photo_md else Raise FileNotFoundError;
     is_hex := hex_name;
     get_size_file := fun _ _ => Ok (VStr "4.0K") |}.

(** Write jobs: the rotated raster over the old file on the stick, over
    the photo in the working directory, and a movie. *)
Definition job_stick : WriteImageRunner :=
  {| rn_pixmap := Some (QPixmap rotated_pixels); rn_path := "/mnt/usb/old.jpg" |}.

Definition job_photo : WriteImageRunner :=
  {| rn_pixmap := Some (QPixmap rotated_pixels); rn_path := "photo.jpg" |}.

Definition job_movie : WriteImageRunner :=
  {| rn_pixmap := Some (QMovie "/home/u/clip.gif"); rn_path := "/home/u/photo.jpg" |}.

(** A handler showing the photo with an unsaved rotation. *)
Definition edited : ImageFileHandler :=
  {| _pixmaps := {| current := Some 1%nat; original := Some 0%nat;
                    transformed := Some 1%nat |};
     heap := [QPixmap photo_pixels; QPixmap rotated_pixels];
     transform := {| transform_dirty := true |};
     manipulate := {| manipulate_dirty := false |};
     _path := "/home/u/photo.jpg"; _pool := []; emitted := []; logged := [] |}.

End Fixtures.

(** ** Further files and jobs *)

Module Samples.

Import Exif Imfile Fixtures.

Definition scan : FileData :=
  {| fd_format := Some "tiff"; fd_animated := false;
     fd_pixels := photo_pixels; fd_exif := None |}.

Definition notes : FileData :=
  {| fd_format := None; fd_animated := false;
     fd_pixels := {| px_width := 0; px_height := 0; px_data := [] |};
     fd_exif := None |}.

(** The home directory with a scan Qt has no writer for, and a text file. *)
Definition desk : FS :=
  {| files := {[ "/home/u/photo.jpg" := photo; "/home/u/scan.tiff" := scan;
                 "/home/u/notes.txt" := notes ]};
     dirs := {[ "/" := 1%nat; "/home" := 1%nat; "/home/u" := 1%nat ]};
     cwd := "/home/u";
     tmpnames := ["k3x9a_b2"; "q7w1e_z0"; "m2n8c_d4"];
     journal := [] |}.

Definition without_piexif : Env :=
  {| piexif := false; QSvgWidget := false; IMAGE_AUTOWRITE := true;
     writer_format := qt |}.

Definition job_scan : WriteImageRunner :=
  {| rn_pixmap := Some (QPixmap rotated_pixels); rn_path := "/home/u/scan.tiff" |}.

Definition job_notes : WriteImageRunner :=
  {| rn_pixmap := Some (QPixmap rotated_pixels); rn_path := "notes.txt" |}.

Definition job_new : WriteImageRunner :=
  {| rn_pixmap := Some (QPixmap rotated_pixels); rn_path := "copy.png" |}.

End Samples.


Import Exif Imfile.

(** * Properties *)

(** ** The write job *)

(** C6. A runner whose buffer is not a QPixmap (a movie, or nothing at all)
    ends with the error "Cannot write animations" in the log, which is how
    the rejection for an unsupported kind of buffer is reported, and the
    file system is exactly what it was: nothing created, changed or
    removed.  The same holds when the job is submitted through
    write_pixmap and the pool is drained. *)
Theorem run_rejects_non_pixmap (E : Env) (r : WriteImageRunner) (fs : FS) :
  isinstance_QPixmap (rn_pixmap r) = false ->
  run E r fs
  = (Ok tt, fs, [Info ("Saving " ++ rn_path r ++ "..."); Error "Cannot write animations"])
  /\ forall (s : ImageFileHandler) (pixmap : option nat),
       _pool s = [] ->
       deref s pixmap = rn_pixmap r ->
       snd (waitForDone E fs (write_pixmap pixmap (rn_path r) s)) = fs.
Proof.
  intros Hk.
  assert (Hrun : forall r', isinstance_QPixmap (rn_pixmap r') = false ->
            run E r' fs
            = (Ok tt, fs, [Info ("Saving " ++ rn_path r' ++ "...");
                           Error "Cannot write animations"])).
  { intros r' Hr'. unfold run, _can_write. rewrite Hr'. reflexivity. }
  split; [exact (Hrun r Hk)|].
  intros s pixmap Hpool Hd.
  unfold waitForDone, write_pixmap. cbn [_pool _reset pool_start].
  rewrite Hpool. cbn [app run_all].
  rewrite Hrun by (cbn [rn_pixmap]; rewrite Hd; exact Hk).
  reflexivity.
Qed.

Lemma run_rejects_non_pixmap_witness :
  run Fixtures.with_piexif Fixtures.job_movie Fixtures.disk
  = (Ok tt, Fixtures.disk,
     [Info "Saving /home/u/photo.jpg..."; Error "Cannot write animations"]).
Proof.
  exact (proj1 (run_rejects_non_pixmap Fixtures.with_piexif Fixtures.job_movie
                  Fixtures.disk eq_refl)).
Defined.

(** ** The pixmap roles *)

(** C9. After _load of a readable path that is neither shown as a vector
    graphic nor animated, current, original and transformed hold one and
    the same reference: the address of the pixmap just constructed, which
    no older object has.  Submitting or draining write jobs leaves the
    three roles as they are; update_pixmap and update_transformed are what
    sets them apart. *)
Theorem load_still_image_aliases (E : Env) (fs : FS) (path : string)
    (s : ImageFileHandler) :
  canRead fs path = true ->
  (String.eqb (reader_format fs path) "svg" && QSvgWidget E) = false ->
  supportsAnimation fs path = false ->
  let s' := _load E fs path s in
  let a := List.length (heap s) in
  (current (_pixmaps s') = Some a /\
   original (_pixmaps s') = Some a /\
   transformed (_pixmaps s') = Some a) /\
  heap s' !! a = Some (QPixmap (load_pixmap fs path)) /\
  heap s !! a = None /\
  (forall p dest, _pixmaps (write_pixmap p dest s') = _pixmaps s') /\
  (forall dest, _pixmaps (_maybe_write E dest s') = _pixmaps s') /\
  _pixmaps (fst (waitForDone E fs s')) = _pixmaps s' /\
  (forall p, current (_pixmaps (update_pixmap p s')) = p /\
             original (_pixmaps (update_pixmap p s')) = Some a /\
             transformed (_pixmaps (update_pixmap p s')) = Some a) /\
  (forall p, current (_pixmaps (update_transformed p s')) = p /\
             original (_pixmaps (update_transformed p s')) = Some a /\
             transformed (_pixmaps (update_transformed p s')) = p).
Proof.
  intros Hread Hsvg Hanim s' a.
  assert (Hs' : s' = set_path path
            (emit (pixmap_loaded (Some a))
               (_set_original (Some a) (snd (alloc (QPixmap (load_pixmap fs path)) s))))).
  { subst s'. unfold _load. rewrite Hread, Hsvg, Hanim. reflexivity. }
  assert (Hpix : _pixmaps s' = {| current := Some a; original := Some a;
                                  transformed := Some a |}).
  { rewrite Hs'. reflexivity. }
  assert (Hheap : heap s' = (heap s ++ [QPixmap (load_pixmap fs path)])%list).
  { rewrite Hs'. reflexivity. }
  repeat split; try (rewrite ?Hpix; reflexivity).
  - rewrite Hheap. subst a. apply list_lookup_middle. reflexivity.
  - subst a. apply lookup_ge_None_2. reflexivity.
  - intros dest. unfold _maybe_write.
    destruct (negb (IMAGE_AUTOWRITE E)); [reflexivity|].
    destruct (_ || _); reflexivity.
  - unfold waitForDone. destruct (run_all E (_pool s') fs). reflexivity.
  - cbn. rewrite Hpix. reflexivity.
  - cbn. rewrite Hpix. reflexivity.
  - cbn. rewrite Hpix. reflexivity.
Qed.

Lemma load_still_image_aliases_witness :
  let s' := _load Fixtures.with_piexif Fixtures.disk "/home/u/photo.jpg" Fixtures.edited in
  current (_pixmaps s') = Some 2%nat /\
  original (_pixmaps s') = Some 2%nat /\
  transformed (_pixmaps s') = Some 2%nat.
Proof.
  exact (proj1 (load_still_image_aliases Fixtures.with_piexif Fixtures.disk
                  "/home/u/photo.jpg" Fixtures.edited eq_refl eq_refl eq_refl)).
Defined.

(** C4, as the code has it.  write_pixmap resets the transform as soon as
    the runner has been handed to the pool, whatever becomes of the job;
    _maybe_write leaves the transform clean in each of its branches; the
    dirty flag of the manipulator is not touched by either, and draining
    the pool changes neither flag. *)
Theorem transform_reset_on_submit (E : Env) (fs : FS) (s : ImageFileHandler)
    (pixmap : option nat) (path : string) :
  transform_changed (transform (write_pixmap pixmap path s)) = false /\
  _pool (write_pixmap pixmap path s)
  = (_pool s ++ [{| rn_pixmap := deref s pixmap; rn_path := path |}])%list /\
  manipulate (write_pixmap pixmap path s) = manipulate s /\
  transform_changed (transform (_maybe_write E path s)) = false /\
  manipulate (_maybe_write E path s) = manipulate s /\
  transform (fst (waitForDone E fs s)) = transform s /\
  manipulate (fst (waitForDone E fs s)) = manipulate s.
Proof.
  repeat split.
  - unfold _maybe_write.
    destruct (negb (IMAGE_AUTOWRITE E)); [reflexivity|].
    destruct (transform_changed (transform s)) eqn:Ht; [reflexivity|].
    destruct (manipulate_changed (manipulate s)); [reflexivity|exact Ht].
  - unfold _maybe_write.
    destruct (negb (IMAGE_AUTOWRITE E)); [reflexivity|].
    destruct (_ || _); reflexivity.
  - unfold waitForDone. destruct (run_all E (_pool s) fs). reflexivity.
  - unfold waitForDone. destruct (run_all E (_pool s) fs). reflexivity.
Qed.

(** C4, as the claim has it, fails: the handler with an unsaved rotation
    submits its pixmap; the runner is still waiting in the pool, nothing
    has been written, and the transform is clean already. *)
Lemma write_pixmap_resets_before_commit :
  let s' := write_pixmap (Some 1%nat) "/home/u/photo.jpg" Fixtures.edited in
  transform_changed (transform Fixtures.edited) = true /\
  _pool s' = [{| rn_pixmap := Some (QPixmap Fixtures.rotated_pixels);
                 rn_path := "/home/u/photo.jpg" |}] /\
  transform_changed (transform s') = false.
Proof. repeat split. Qed.

(** ** Paths *)

Lemma append_cons (x : ascii) (a b : string) : String x a ++ b = String x (a ++ b).
Proof. reflexivity. Qed.

Lemma append_nil (b : string) : "" ++ b = b.
Proof. reflexivity. Qed.

Lemma has_char_app (c : ascii) (a b : string) :
  has_char c (a ++ b) = has_char c a || has_char c b.
Proof.
  unfold has_char. induction a as [|x a IH]; [reflexivity|].
  rewrite append_cons. cbn. rewrite IH. apply orb_assoc.
Qed.

Lemma has_char_rpartition_tail (c : ascii) (s : string) :
  has_char c (rpartition_tail c s) = false.
Proof.
  induction s as [|x s IH]; [reflexivity|].
  change (rpartition_tail c (String x s))
    with (if has_char c s then rpartition_tail c s
          else if Ascii.eqb c x then s else String x s).
  destruct (has_char c s) eqn:Hs; [exact IH|].
  destruct (Ascii.eqb c x) eqn:Hx; [exact Hs|].
  unfold has_char. cbn. rewrite Hx. exact Hs.
Qed.

Lemma has_char_rpartition_tail_other (c sep : ascii) (s : string) :
  has_char c s = false -> has_char c (rpartition_tail sep s) = false.
Proof.
  induction s as [|x s IH]; [reflexivity|].
  intros H. assert (Hs : has_char c s = false).
  { unfold has_char in *. cbn in H. apply orb_false_iff in H. tauto. }
  change (rpartition_tail sep (String x s))
    with (if has_char sep s then rpartition_tail sep s
          else if Ascii.eqb sep x then s else String x s).
  destruct (has_char sep s); [auto|].
  destruct (Ascii.eqb sep x); [exact Hs|exact H].
Qed.

Lemma has_char_drop_dots (c : ascii) (s : string) :
  has_char c s = false -> has_char c (drop_dots s) = false.
Proof.
  induction s as [|x s IH]; [reflexivity|].
  intros H. assert (Hs : has_char c s = false).
  { unfold has_char in *. cbn in H. apply orb_false_iff in H. tauto. }
  cbn. destruct x as [[] [] [] [] [] [] [] []]; auto.
Qed.

Lemma splitext_ext_no_slash (p : string) : has_char "/" (splitext_ext p) = false.
Proof.
  unfold splitext_ext.
  destruct (has_char "." (drop_dots (basename p))); [|reflexivity].
  change (has_char "/" (String "." ?s)) with (has_char "/" s).
  apply has_char_rpartition_tail_other, has_char_drop_dots.
  apply has_char_rpartition_tail.
Qed.

Lemma rpartition_head_app (sep : ascii) (a b : string) :
  has_char sep b = false -> rpartition_head sep (a ++ String sep b) = a.
Proof.
  intros Hb. induction a as [|x a IH].
  - rewrite append_nil. cbn. fold (has_char sep b). rewrite Hb. reflexivity.
  - rewrite append_cons. cbn. fold (has_char sep (a ++ String sep b)).
    rewrite has_char_app. replace (has_char sep (String sep b)) with true.
    + rewrite orb_true_r, IH. reflexivity.
    + unfold has_char. cbn. rewrite Ascii.eqb_refl. reflexivity.
Qed.

Lemma isabs_app (d x : string) : isabs d = true -> isabs (d ++ x) = true.
Proof.
  destruct d as [|c d]; [discriminate|].
  rewrite append_cons. unfold isabs.
  change (startswith (String c ?t) "/") with (Ascii.eqb "/" c && true).
  trivial.
Qed.

Lemma dirname_join (d name : string) :
  normalized d = true -> isabs name = false -> has_char "/" name = false ->
  dirname (path_join d name) = d.
Proof.
  unfold normalized. intros Hd Hn Hs.
  apply andb_true_iff in Hd as [Habs Hd].
  unfold path_join. rewrite Hn.
  destruct d as [|c d]; [discriminate|].
  change (String.eqb (String c d) "") with false. cbv iota.
  destruct (String.eqb (rpartition_tail "/" (String c d)) "") eqn:Ht.
  - rewrite orb_false_r in Hd. apply String.eqb_eq in Hd. rewrite Hd.
    change ("/" ++ name) with ("" ++ String "/" name).
    unfold dirname. rewrite has_char_app, rpartition_head_app by exact Hs.
    reflexivity.
  - change (String c d ++ "/" ++ name) with (String c d ++ String "/" name).
    unfold dirname. rewrite has_char_app, rpartition_head_app by exact Hs.
    replace (has_char "/" (String "/" name)) with true by reflexivity.
    rewrite orb_true_r. reflexivity.
Qed.

(** ** The journal of a write *)

Lemma grows_refl (P : SysCall -> Prop) (fs : FS) : grows P fs fs.
Proof. split; [reflexivity|]. exists []. rewrite app_nil_r. auto. Qed.

Lemma grows_trans (P : SysCall -> Prop) (fs1 fs2 fs3 : FS) :
  grows P fs1 fs2 -> grows P fs2 fs3 -> grows P fs1 fs3.
Proof.
  intros [Hc1 (l1 & Hj1 & Hl1)] [Hc2 (l2 & Hj2 & Hl2)].
  split; [congruence|]. exists (l1 ++ l2)%list.
  split; [rewrite Hj2, Hj1, app_assoc; reflexivity|].
  apply Forall_app; auto.
Qed.

Lemma grows_one (P : SysCall -> Prop) (c : SysCall) (m : gmap string FileData) (fs : FS) :
  P c -> grows P fs (log_call c (set_files m fs)).
Proof. intros Hc. split; [reflexivity|]. exists [c]. split; [reflexivity|]. auto. Qed.

Create HintDb journal.
#[local] Hint Resolve grows_refl grows_one : journal.

Lemma save_grows (E : Env) (dst : string) (o : option QObj) (file : string) (fs : FS) :
  grows (later_call (abspath fs file) dst) fs (save E o file fs).
Proof.
  unfold save. destruct o as [[px|]|]; auto with journal.
  destruct (writer_format E _); auto with journal.
  destruct (_ || _); auto with journal.
  apply grows_one. exact eq_refl.
Qed.

(** A buffer Qt can encode is saved, into the file that is named. *)
Lemma save_ok (E : Env) (px : Pixmap) (fmt file : string) (fs : FS) :
  writer_format E (splitext_ext file) = Some fmt ->
  isNull px = false ->
  isdir fs (dirname (abspath fs file)) = true ->
  journal (save E (Some (QPixmap px)) file fs)
  = (journal fs ++ [Save (abspath fs file)])%list.
Proof. intros Hw Hn Hd. unfold save. rewrite Hw, Hn, Hd. reflexivity. Qed.

Lemma piexif_insert_grows (dst : string) (e : ExifDict) (file : string) (fs : FS) :
  grows (later_call (abspath fs file) dst) fs (snd (piexif_insert e file fs)).
Proof.
  unfold piexif_insert. destruct (read_file fs file); cbn; auto with journal.
  destruct (is_jpeg _); cbn; auto with journal.
  apply grows_one. exact eq_refl.
Qed.

Lemma _copy_exif_grows (dst src dest : string) (fs : FS) :
  grows (later_call (abspath fs dest) dst) fs (snd (_copy_exif src dest fs)).
Proof.
  unfold _copy_exif, piexif_transplant.
  destruct (read_file fs src) as [d|]; cbn; auto with journal.
  destruct (is_jpeg d); cbn; auto with journal.
  destruct (fd_exif d) as [e|]; cbn; auto with journal.
  pose proof (piexif_insert_grows dst e dest fs) as H.
  destruct (piexif_insert e dest fs) as [[|x] fs']; cbn in *; auto.
  destruct (is_InvalidImageDataError x); auto.
Qed.

Lemma rename_grows (src dst : string) (fs : FS) :
  grows (later_call (abspath fs src) (abspath fs dst)) fs (snd (rename src dst fs)).
Proof.
  unfold rename. destruct (files fs !! abspath fs src); cbn; auto with journal.
  destruct (isdir fs (abspath fs dst)); cbn; auto with journal.
  destruct (dirs fs !! dirname (abspath fs src)) as [d1|],
    (dirs fs !! dirname (abspath fs dst)) as [d2|]; cbn; auto with journal.
  destruct (d1 =? d2)%nat; cbn; auto with journal.
  apply grows_one. split; reflexivity.
Qed.

Lemma rename_ok (src dst : string) (fs fs' : FS) :
  rename src dst fs = (Ok tt, fs') ->
  journal fs' = (journal fs ++ [Rename (abspath fs src) (abspath fs dst)])%list.
Proof.
  unfold rename. destruct (files fs !! abspath fs src); [|discriminate].
  destruct (isdir fs (abspath fs dst)); [discriminate|].
  destruct (dirs fs !! dirname (abspath fs src)) as [d1|],
    (dirs fs !! dirname (abspath fs dst)) as [d2|]; try discriminate.
  destruct (d1 =? d2)%nat; [|discriminate].
  intros [= <-]. reflexivity.
Qed.

Lemma remove_grows (f p : string) (fs : FS) :
  grows (later_call f (abspath fs p)) fs (snd (remove p fs)).
Proof.
  unfold remove. destruct (isdir fs (abspath fs p)); cbn; auto with journal.
  destruct (files fs !! abspath fs p); cbn; auto with journal.
  apply grows_one. exact eq_refl.
Qed.

Lemma _write_commit_grows (r : WriteImageRunner) (file : string) (fs : FS) :
  grows (later_call (abspath fs file) (abspath fs (rn_path r))) fs
    (snd (_write_commit r file fs)).
Proof.
  unfold _write_commit.
  pose proof (rename_grows file (rn_path r) fs) as Hr.
  destruct (rename file (rn_path r) fs) as [[[]|e] fs1]; cbn [fst snd] in *; auto.
  destruct (negb (isfile fs1 (rn_path r))); cbn [fst snd]; auto.
  destruct (negb (is_image fs1 (rn_path r))); cbn [fst snd]; auto.
  pose proof (remove_grows (abspath fs file) (rn_path r) fs1) as Hm.
  assert (Hd : abspath fs1 (rn_path r) = abspath fs (rn_path r)).
  { unfold abspath. rewrite (proj1 Hr). reflexivity. }
  rewrite Hd in Hm.
  destruct (remove (rn_path r) fs1) as [[[]|e] fs2]; cbn [fst snd] in *;
    eapply grows_trans; eauto.
Qed.

Lemma _write_commit_ok (r : WriteImageRunner) (file : string) (fs fs' : FS) :
  _write_commit r file fs = (Ok tt, fs') ->
  journal fs' = (journal fs ++ [Rename (abspath fs file) (abspath fs (rn_path r))])%list.
Proof.
  unfold _write_commit.
  destruct (rename file (rn_path r) fs) as [[[]|e] fs1] eqn:Hr; [|discriminate].
  apply rename_ok in Hr.
  destruct (negb (isfile fs1 (rn_path r))); [discriminate|].
  destruct (negb (is_image fs1 (rn_path r))).
  - destruct (remove (rn_path r) fs1) as [[[]|e] fs2]; discriminate.
  - intros [= <-]. exact Hr.
Qed.

(** mkstemp takes the first candidate that is free, and fails only when
    every candidate is taken. *)
Lemma mkstemp_inner_inv (dir suffix : string) (names : list string) (fs : FS) :
  let '(r, fs') := mkstemp_inner dir suffix names fs in
  cwd fs' = cwd fs /\ dirs fs' = dirs fs /\
  ((r = Raise FileExistsError /\ journal fs' = journal fs /\ files fs' = files fs /\
    Forall (fun name => exists_ fs (path_join dir ("tmp" ++ name ++ suffix)) = true) names) \/
   (exists name, name ∈ names /\
      exists_ fs (path_join dir ("tmp" ++ name ++ suffix)) = false /\
      r = Ok (path_join dir ("tmp" ++ name ++ suffix)) /\
      journal fs'
      = (journal fs ++ [Mkstemp (path_join dir ("tmp" ++ name ++ suffix))])%list)).
Proof.
  induction names as [|name rest IH]; cbn.
  - split; [reflexivity|]. split; [reflexivity|]. left. repeat split. constructor.
  - destruct (exists_ fs (path_join dir ("tmp" ++ name ++ suffix))) eqn:Hex.
    + destruct (mkstemp_inner dir suffix rest fs) as [r fs'].
      destruct IH as (Hc & Hd & [(Hr & Hj & Hf & Hall)|(n & Hn & Hfree & Hr & Hj)]);
        (split; [exact Hc|]); (split; [exact Hd|]).
      * left. repeat split; auto.
      * right. exists n. split; [apply elem_of_cons; auto|auto].
    + split; [reflexivity|]. split; [reflexivity|]. right. exists name.
      split; [apply elem_of_cons; auto|auto].
Qed.

Lemma isabs_join (d n : string) : isabs d = true -> isabs (path_join d n) = true.
Proof.
  intros Hd. unfold path_join.
  destruct (isabs n) eqn:Hn; [exact Hn|].
  destruct d as [|c d]; [discriminate|].
  change (String.eqb (String c d) "") with false. cbv iota.
  destruct (String.eqb _ ""); apply isabs_app; exact Hd.
Qed.

Lemma abspath_abs (fs : FS) (p : string) : isabs p = true -> abspath fs p = p.
Proof. intros H. unfold abspath, path_join. rewrite H. reflexivity. Qed.

Lemma new_calls_app (fs fs' : FS) (l : list SysCall) :
  journal fs' = (journal fs ++ l)%list -> new_calls fs fs' = l.
Proof. intros H. unfold new_calls. rewrite H. apply drop_app_length. Qed.

Lemma rpartition_tail_app (sep : ascii) (a b : string) :
  has_char sep b = false -> rpartition_tail sep (a ++ String sep b) = b.
Proof.
  intros Hb. induction a as [|x a IH].
  - rewrite append_nil.
    change (rpartition_tail sep (String sep b))
      with (if has_char sep b then rpartition_tail sep b
            else if Ascii.eqb sep sep then b else String sep b).
    rewrite Hb, Ascii.eqb_refl. reflexivity.
  - rewrite append_cons.
    change (rpartition_tail sep (String x (a ++ String sep b)))
      with (if has_char sep (a ++ String sep b) then rpartition_tail sep (a ++ String sep b)
            else if Ascii.eqb sep x then a ++ String sep b
                 else String x (a ++ String sep b)).
    rewrite has_char_app.
    replace (has_char sep (String sep b)) with true
      by (unfold has_char; cbn; rewrite Ascii.eqb_refl; reflexivity).
    rewrite orb_true_r. exact IH.
Qed.

Lemma basename_join (d n : string) :
  normalized d = true -> isabs n = false -> has_char "/" n = false ->
  basename (path_join d n) = n.
Proof.
  unfold normalized, basename. intros Hd Hn Hs.
  apply andb_true_iff in Hd as [Habs Hd].
  unfold path_join. rewrite Hn.
  destruct d as [|c d]; [discriminate|].
  change (String.eqb (String c d) "") with false. cbv iota.
  destruct (String.eqb (rpartition_tail "/" (String c d)) "") eqn:Ht.
  - rewrite orb_false_r in Hd. apply String.eqb_eq in Hd. rewrite Hd.
    change ("/" ++ n) with ("" ++ String "/" n).
    apply rpartition_tail_app, Hs.
  - change (String c d ++ "/" ++ n) with (String c d ++ String "/" n).
    apply rpartition_tail_app, Hs.
Qed.

Lemma splitext_ext_shape (p : string) :
  splitext_ext p = "" \/
  exists t, splitext_ext p = String "." t /\ has_char "." t = false.
Proof.
  unfold splitext_ext. destruct (has_char "." _); [right|left; reflexivity].
  eexists. split; [reflexivity|]. apply has_char_rpartition_tail.
Qed.

Lemma append_assoc (a b c : string) : (a ++ b) ++ c = a ++ (b ++ c).
Proof.
  induction a as [|x a IH]; [reflexivity|].
  rewrite !append_cons, IH. reflexivity.
Qed.

(** The temporary file has the suffix of the destination. *)
Lemma splitext_ext_tmp (d name p : string) :
  normalized d = true -> plain_name name = true ->
  splitext_ext (path_join d ("tmp" ++ name ++ splitext_ext p)) = splitext_ext p.
Proof.
  intros Hd Hname. apply andb_true_iff in Hname as [Hs Hdot].
  apply negb_true_iff in Hs, Hdot.
  unfold splitext_ext at 1.
  rewrite basename_join;
    [|exact Hd|reflexivity|rewrite !has_char_app, Hs, splitext_ext_no_slash; reflexivity].
  change (drop_dots ("tmp" ++ name ++ splitext_ext p))
    with ("tmp" ++ name ++ splitext_ext p).
  rewrite !has_char_app, Hdot.
  destruct (splitext_ext_shape p) as [->|(t & -> & Ht)].
  - reflexivity.
  - replace (has_char "." (String "." t)) with true by reflexivity.
    rewrite orb_true_r, <- append_assoc, rpartition_tail_app by exact Ht.
    reflexivity.
Qed.

(** The shape of what _write adds to the journal.  When no temporary file
    can be made, nothing at all; otherwise the creation of the first free
    candidate in the working directory, followed by calls on that file:
    the buffer is saved into it first when Qt can encode it, and the last
    call is the rename onto the destination when the write succeeds. *)
Lemma _write_journal (E : Env) (r : WriteImageRunner) (fs : FS) :
  normalized (cwd fs) = true ->
  forallb plain_name (tmpnames fs) = true ->
  let dst := abspath fs (rn_path r) in
  let res := fst (_write E r fs) in
  let fs' := snd (_write E r fs) in
  ((isdir fs (cwd fs) = false /\ res = Raise FileNotFoundError \/
    Forall (fun name =>
              exists_ fs (path_join (cwd fs) ("tmp" ++ name ++ splitext_ext (rn_path r)))
              = true) (tmpnames fs) /\ res = Raise FileExistsError) /\
   new_calls fs fs' = [] /\ files fs' = files fs) \/
  exists name l,
    let f := path_join (cwd fs) ("tmp" ++ name ++ splitext_ext (rn_path r)) in
    isdir fs (cwd fs) = true /\
    name ∈ tmpnames fs /\
    exists_ fs f = false /\
    dirname f = cwd fs /\
    new_calls fs fs' = Mkstemp f :: l /\
    Forall (later_call f dst) l /\
    (forall px fmt, rn_pixmap r = Some (QPixmap px) -> isNull px = false ->
       writer_format E (splitext_ext (rn_path r)) = Some fmt ->
       head l = Some (Save f)) /\
    (res = Ok tt -> last l = Some (Rename f dst)).
Proof.
  intros Hn Hnames dst.
  assert (Habs : isabs (cwd fs) = true).
  { unfold normalized in Hn. apply andb_true_iff in Hn. tauto. }
  assert (Hisdir_eq : forall fs1, cwd fs1 = cwd fs -> dirs fs1 = dirs fs ->
            isdir fs1 (cwd fs) = isdir fs (cwd fs)).
  { intros fs1 Hc Hd. unfold isdir, abspath. rewrite Hc, Hd. reflexivity. }
  unfold _write, mkstemp, getcwd.
  rewrite (abspath_abs fs (cwd fs) Habs).
  destruct (isdir fs (cwd fs)) eqn:Hisdir.
  2:{ left. cbn [fst snd]. split; [left; split; reflexivity|].
      split; [apply new_calls_app; rewrite app_nil_r; reflexivity|reflexivity]. }
  pose proof (mkstemp_inner_inv (cwd fs) (splitext_ext (rn_path r)) (tmpnames fs) fs) as Hm.
  destruct (mkstemp_inner _ _ _ fs) as [rt fs1].
  destruct Hm as (Hc1 & Hd1 & [(-> & Hj1 & Hf1 & Hall)|(name & Hname & Hfree & -> & Hj1)]).
  { left. cbn [fst snd]. split; [right; split; [exact Hall|reflexivity]|].
    split; [apply new_calls_app; rewrite Hj1, app_nil_r; reflexivity|exact Hf1]. }
  right. exists name. cbn iota beta zeta.
  set (f := path_join (cwd fs) ("tmp" ++ name ++ splitext_ext (rn_path r))) in *.
  assert (Hplain : plain_name name = true).
  { rewrite forallb_forall in Hnames. apply Hnames, list_elem_of_In, Hname. }
  assert (Hf : isabs f = true) by (apply isabs_join; exact Habs).
  assert (Hdir : dirname f = cwd fs).
  { apply dirname_join; [exact Hn|reflexivity|].
    rewrite !has_char_app, splitext_ext_no_slash.
    apply andb_true_iff, proj1, negb_true_iff in Hplain.
    rewrite Hplain. reflexivity. }
  assert (Hext : splitext_ext f = splitext_ext (rn_path r)).
  { apply splitext_ext_tmp; assumption. }
  set (fs2 := save E (rn_pixmap r) f fs1).
  pose proof (save_grows E dst (rn_pixmap r) f fs1) as H2. fold fs2 in H2.
  rewrite (abspath_abs fs1 f Hf) in H2.
  destruct H2 as [Hc2 (l2 & Hj2 & Hl2)].
  assert (Hs : forall px fmt, rn_pixmap r = Some (QPixmap px) -> isNull px = false ->
            writer_format E (splitext_ext (rn_path r)) = Some fmt -> l2 = [Save f]).
  { intros px fmt Hpx Hnull Hw.
    pose proof (save_ok E px fmt f fs1) as Hj.
    rewrite (abspath_abs fs1 f Hf), Hext, Hdir, (Hisdir_eq fs1 Hc1 Hd1) in Hj.
    specialize (Hj Hw Hnull eq_refl).
    unfold fs2 in Hj2. rewrite Hpx, Hj in Hj2.
    apply app_inv_head in Hj2. symmetry. exact Hj2. }
  assert (Hclose : forall res fs' l,
            new_calls fs fs' = Mkstemp f :: (l2 ++ l)%list ->
            Forall (later_call f dst) l ->
            (res = Ok tt -> last (l2 ++ l) = Some (Rename f dst)) ->
            exists l0,
              true = true /\ name ∈ tmpnames fs /\ exists_ fs f = false /\
              dirname f = cwd fs /\
              new_calls fs fs' = Mkstemp f :: l0 /\
              Forall (later_call f dst) l0 /\
              (forall px fmt, rn_pixmap r = Some (QPixmap px) -> isNull px = false ->
                 writer_format E (splitext_ext (rn_path r)) = Some fmt ->
                 head l0 = Some (Save f)) /\
              (res = Ok tt -> last l0 = Some (Rename f dst))).
  { intros res fs' l Hnew Hl Hlast. exists (l2 ++ l)%list.
    split; [reflexivity|]. split; [exact Hname|]. split; [exact Hfree|].
    split; [exact Hdir|]. split; [exact Hnew|].
    split; [apply Forall_app; auto|]. split; [|exact Hlast].
    intros px fmt Hpx Hnull Hw. rewrite (Hs px fmt Hpx Hnull Hw). reflexivity. }
  assert (Hfinish : forall fs3 l3,
            cwd fs3 = cwd fs -> journal fs3 = (journal fs2 ++ l3)%list ->
            Forall (later_call f dst) l3 ->
            exists l, new_calls fs (snd (_write_commit r f fs3)) = Mkstemp f :: (l2 ++ l)%list /\
                      Forall (later_call f dst) l /\
                      (fst (_write_commit r f fs3) = Ok tt ->
                       last (l2 ++ l) = Some (Rename f dst))).
  { intros fs3 l3 Hc3 Hj3 Hl3.
    pose proof (_write_commit_grows r f fs3) as H4.
    pose proof (_write_commit_ok r f fs3) as Hok.
    assert (Hd : abspath fs3 (rn_path r) = dst) by (unfold dst, abspath; congruence).
    rewrite (abspath_abs fs3 f Hf), Hd in H4, Hok.
    destruct (_write_commit r f fs3) as [res fs4]. cbn [fst snd] in *.
    destruct H4 as [Hc4 (l4 & Hj4 & Hl4)].
    exists (l3 ++ l4)%list. split; [|split].
    - apply new_calls_app. rewrite Hj4, Hj3, Hj2, Hj1, <- !app_assoc. reflexivity.
    - apply Forall_app; auto.
    - intros ->. specialize (Hok fs4 eq_refl).
      rewrite Hj4 in Hok. apply app_inv_head in Hok. subst l4.
      rewrite !app_assoc. apply last_snoc. }
  destruct (piexif E).
  - pose proof (_copy_exif_grows dst (rn_path r) f fs2) as H3.
    rewrite (abspath_abs fs2 f Hf) in H3.
    destruct H3 as [Hc3 (l3 & Hj3 & Hl3)].
    destruct (_copy_exif (rn_path r) f fs2) as [[[]|e] fs3]; cbn [fst snd] in *.
    + destruct (Hfinish fs3 l3 ltac:(congruence) Hj3 Hl3) as (l & Hnew & Hl & Hlast).
      exact (Hclose _ _ l Hnew Hl Hlast).
    + apply (Hclose _ _ l3); [|exact Hl3|discriminate].
      apply new_calls_app. rewrite Hj3, Hj2, Hj1, <- !app_assoc. reflexivity.
  - destruct (Hfinish fs2 [] ltac:(congruence) ltac:(rewrite app_nil_r; reflexivity)
                ltac:(constructor)) as (l & Hnew & Hl & Hlast).
    exact (Hclose _ _ l Hnew Hl Hlast).
Qed.

(** C1, as the code has it.  Whenever a temporary file can be made, a
    write job makes one, the first free candidate, in the working
    directory of the process, whatever the destination is, and a buffer
    that Qt can encode is saved into it first.  The buffer and the EXIF
    data are written into that file and nowhere else, never into the
    destination itself; the only rename the job makes is that of this file
    onto the destination, and a job that succeeds ends with it.  The
    temporary file is in the directory of the destination exactly when the
    destination lies in the working directory.  When no temporary file can
    be made the job raises and has done nothing. *)
Theorem write_tempfile_in_cwd (E : Env) (r : WriteImageRunner) (fs : FS) :
  normalized (getcwd fs) = true ->
  forallb plain_name (tmpnames fs) = true ->
  let res := fst (_write E r fs) in
  let fs' := snd (_write E r fs) in
  let dst := abspath fs (rn_path r) in
  let candidate := fun name =>
    path_join (getcwd fs) ("tmp" ++ name ++ splitext_ext (rn_path r)) in
  (isdir fs (getcwd fs) = true ->
   (exists name, name ∈ tmpnames fs /\ exists_ fs (candidate name) = false) ->
   exists name l,
     name ∈ tmpnames fs /\ exists_ fs (candidate name) = false /\
     new_calls fs fs' = Mkstemp (candidate name) :: l /\
     Forall (later_call (candidate name) dst) l /\
     (forall px fmt, rn_pixmap r = Some (QPixmap px) -> isNull px = false ->
        writer_format E (splitext_ext (rn_path r)) = Some fmt ->
        head l = Some (Save (candidate name)))) /\
  (isdir fs (getcwd fs) = false \/
   Forall (fun name => exists_ fs (candidate name) = true) (tmpnames fs) ->
   new_calls fs fs' = [] /\ files fs' = files fs /\ exists e, res = Raise e) /\
  (forall f, Mkstemp f ∈ new_calls fs fs' ->
     dirname f = getcwd fs /\
     (dirname f = dirname dst <-> getcwd fs = dirname dst)) /\
  (forall p, Save p ∈ new_calls fs fs' \/ InsertExif p ∈ new_calls fs fs' ->
     head (new_calls fs fs') = Some (Mkstemp p)) /\
  (forall src dst', Rename src dst' ∈ new_calls fs fs' ->
     Mkstemp src ∈ new_calls fs fs' /\ dst' = dst) /\
  (res = Ok tt ->
     exists f, head (new_calls fs fs') = Some (Mkstemp f) /\
               last (new_calls fs fs') = Some (Rename f dst)).
Proof.
  intros Hn Hnames res fs' dst candidate. unfold getcwd in *.
  pose proof (_write_journal E r fs Hn Hnames) as H. cbn zeta in H.
  fold dst res fs' in H. fold candidate in H.
  destruct H as [(Hwhy & Hnil & Hfiles)|(name & l & Hisdir & Hname & Hfree & Hdir & Hnew & Hl
                                         & Hsave & Hlast)].
  { assert (Hres : exists e, res = Raise e) by (destruct Hwhy as [[_ ->]|[_ ->]]; eauto).
    rewrite Hnil. split; [|split; [|split; [|split; [|split]]]].
    - intros Hisdir (name & Hname & Hfree).
      destruct Hwhy as [[Hno _]|[Hall _]]; [congruence|].
      rewrite Forall_forall in Hall. specialize (Hall name Hname).
      fold (candidate name) in Hall. congruence.
    - auto.
    - intros f Hf. apply elem_of_nil in Hf. contradiction.
    - intros p [Hp|Hp]; apply elem_of_nil in Hp; contradiction.
    - intros src dst' Hf. apply elem_of_nil in Hf. contradiction.
    - intros Hok. destruct Hres as [e He]. congruence. }
  fold (candidate name) in Hfree, Hdir, Hnew, Hl, Hsave, Hlast.
  rewrite Hnew. pose proof Hl as Hall. rewrite Forall_forall in Hl.
  split; [|split; [|split; [|split; [|split]]]].
  - intros _ _. exists name, l. auto.
  - intros [Hno|Hall']; [congruence|].
    rewrite Forall_forall in Hall'. specialize (Hall' name Hname). cbn beta in Hall'.
    congruence.
  - intros f' Hf'. apply elem_of_cons in Hf' as [[= ->]|Hf'].
    + rewrite Hdir. tauto.
    + destruct (Hl _ Hf').
  - intros p [Hp|Hp]; apply elem_of_cons in Hp as [[=]|Hp];
      specialize (Hl _ Hp); cbn in Hl; subst p; reflexivity.
  - intros src dst' Hr. apply elem_of_cons in Hr as [[=]|Hr].
    destruct (Hl _ Hr) as [-> ->]. split; [apply elem_of_cons; auto|reflexivity].
  - intros Hok. exists (candidate name). split; [reflexivity|].
    specialize (Hlast Hok). destruct l as [|c l]; [discriminate|].
    rewrite last_cons, Hlast. reflexivity.
Qed.

Lemma write_tempfile_in_cwd_witness :
  normalized (getcwd Fixtures.disk) = true /\
  forallb plain_name (tmpnames Fixtures.disk) = true /\
  isdir Fixtures.disk (getcwd Fixtures.disk) = true /\
  exists name l,
    name ∈ tmpnames Fixtures.disk /\
    exists_ Fixtures.disk
      (path_join (getcwd Fixtures.disk)
         ("tmp" ++ name ++ splitext_ext (rn_path Fixtures.job_photo))) = false /\
    new_calls Fixtures.disk
      (snd (_write Fixtures.with_piexif Fixtures.job_photo Fixtures.disk))
    = Mkstemp (path_join (getcwd Fixtures.disk)
                 ("tmp" ++ name ++ splitext_ext (rn_path Fixtures.job_photo))) :: l /\
    Forall (later_call
              (path_join (getcwd Fixtures.disk)
                 ("tmp" ++ name ++ splitext_ext (rn_path Fixtures.job_photo)))
              (abspath Fixtures.disk (rn_path Fixtures.job_photo))) l /\
    (forall px fmt, rn_pixmap Fixtures.job_photo = Some (QPixmap px) -> isNull px = false ->
       writer_format Fixtures.with_piexif (splitext_ext (rn_path Fixtures.job_photo))
       = Some fmt ->
       head l = Some (Save (path_join (getcwd Fixtures.disk)
                              ("tmp" ++ name ++ splitext_ext (rn_path Fixtures.job_photo))))).
Proof.
  split; [vm_compute; reflexivity|]. split; [vm_compute; reflexivity|].
  split; [vm_compute; reflexivity|].
  apply (proj1 (write_tempfile_in_cwd Fixtures.with_piexif Fixtures.job_photo Fixtures.disk
                  ltac:(vm_compute; reflexivity) ltac:(vm_compute; reflexivity))).
  - vm_compute; reflexivity.
  - exists "k3x9a_b2". split; [apply elem_of_cons; left; reflexivity|].
    vm_compute; reflexivity.
Defined.

(** C1, as the claim has it, fails: the process works in /home/u and the
    job overwrites a file on the stick.  The temporary file is created in
    /home/u, not in /mnt/usb, and the rename across the two devices
    raises. *)
Lemma tempfile_not_in_destination_dir :
  let res := fst (_write Fixtures.with_piexif Fixtures.job_stick Fixtures.disk) in
  let fs' := snd (_write Fixtures.with_piexif Fixtures.job_stick Fixtures.disk) in
  new_calls Fixtures.disk fs'
  = [Mkstemp "/home/u/tmpk3x9a_b2.jpg"; Save "/home/u/tmpk3x9a_b2.jpg";
     InsertExif "/home/u/tmpk3x9a_b2.jpg"] /\
  dirname "/home/u/tmpk3x9a_b2.jpg"
  <> dirname (abspath Fixtures.disk (rn_path Fixtures.job_stick)) /\
  res = Raise OSError.
Proof.
  split; [vm_compute; reflexivity|]. split; [|vm_compute; reflexivity].
  vm_compute. discriminate.
Qed.

(** ** Writing with piexif at hand *)

Lemma mkstemp_inner_ok (dir suffix : string) (names : list string) (fs fs1 : FS)
    (f : string) :
  mkstemp_inner dir suffix names fs = (Ok f, fs1) ->
  exists name, name ∈ names /\
    f = path_join dir ("tmp" ++ name ++ suffix) /\
    exists_ fs f = false /\
    files fs1 = <[f := empty_file]> (files fs) /\
    dirs fs1 = dirs fs /\ cwd fs1 = cwd fs.
Proof.
  induction names as [|name rest IH]; cbn; [discriminate|].
  destruct (exists_ fs (path_join dir ("tmp" ++ name ++ suffix))) eqn:Hex.
  - intros H. destruct (IH H) as (n & Hn & Hrest). exists n.
    split; [apply elem_of_cons; auto|exact Hrest].
  - intros [= <- <-]. exists name.
    split; [apply elem_of_cons; auto|]. repeat split. exact Hex.
Qed.

Lemma exists_false_lookup (fs : FS) (f : string) :
  isabs f = true -> exists_ fs f = false -> files fs !! f = None.
Proof.
  intros Hf H. unfold exists_, isfile, read_file in H.
  apply orb_false_iff in H as [H _]. rewrite (abspath_abs fs f Hf) in H.
  apply bool_decide_eq_false in H.
  destruct (files fs !! f); [exfalso; apply H; eauto|reflexivity].
Qed.

Lemma save_files (E : Env) (o : option QObj) (f : string) (fs : FS) :
  isabs f = true ->
  cwd (save E o f fs) = cwd fs /\
  (files (save E o f fs) = files fs \/
   exists px fmt, o = Some (QPixmap px) /\
     writer_format E (splitext_ext f) = Some fmt /\
     files (save E o f fs)
     = <[f := {| fd_format := Some fmt; fd_animated := false;
                 fd_pixels := px; fd_exif := None |}]> (files fs)).
Proof.
  intros Hf. unfold save. rewrite (abspath_abs fs f Hf).
  destruct o as [[px|]|]; auto.
  destruct (writer_format E (splitext_ext f)) as [fmt|] eqn:Hw; auto.
  destruct (_ || _); auto.
  split; [reflexivity|]. right. exists px, fmt. auto.
Qed.

Lemma is_jpeg_set_exif (e : ExifDict) (d : FileData) :
  is_jpeg (set_exif e d) = is_jpeg d.
Proof. reflexivity. Qed.

Lemma _write_commit_files (r : WriteImageRunner) (f : string) (fs fs' : FS) :
  isabs f = true ->
  _write_commit r f fs = (Ok tt, fs') ->
  cwd fs' = cwd fs /\
  exists data, files fs !! f = Some data /\
    is_Some (fd_format data) /\
    files fs' !! abspath fs (rn_path r) = Some data.
Proof.
  intros Hf. unfold _write_commit, rename. rewrite (abspath_abs fs f Hf).
  destruct (files fs !! f) as [data|]; [|discriminate].
  destruct (isdir fs _); [discriminate|].
  destruct (dirs fs !! dirname f) as [d1|],
    (dirs fs !! dirname (abspath fs (rn_path r))) as [d2|]; try discriminate.
  destruct (d1 =? d2)%nat; [|discriminate].
  set (fs1 := log_call _ _).
  assert (Hl : read_file fs1 (rn_path r) = Some data).
  { unfold read_file, fs1. cbn. apply lookup_insert_eq. }
  unfold isfile, is_image. rewrite Hl.
  rewrite bool_decide_eq_true_2 by eauto. cbn [negb].
  destruct (bool_decide (is_Some (fd_format data))) eqn:Hfmt; cbn [negb].
  - intros [= <-]. split; [reflexivity|]. exists data.
    apply bool_decide_eq_true in Hfmt. auto.
  - destruct (remove (rn_path r) fs1) as [[[]|x] fs2]; discriminate.
Qed.

(** A write that succeeds over a JPEG carrying EXIF data, in JPEG again and
    with piexif at hand, leaves at the destination the new raster with the
    EXIF data of the old file, as they were. *)
Lemma _write_keeps_exif (E : Env) (r : WriteImageRunner) (fs fs' : FS)
    (d : FileData) (e : ExifDict) :
  normalized (getcwd fs) = true ->
  forallb plain_name (tmpnames fs) = true ->
  piexif E = true ->
  read_file fs (rn_path r) = Some d ->
  is_jpeg d = true ->
  fd_exif d = Some e ->
  writer_format E (splitext_ext (rn_path r)) = Some "jpeg" ->
  _write E r fs = (Ok tt, fs') ->
  exists px, rn_pixmap r = Some (QPixmap px) /\
    read_file fs' (rn_path r)
    = Some {| fd_format := Some "jpeg"; fd_animated := false;
              fd_pixels := px; fd_exif := Some e |}.
Proof.
  unfold getcwd. intros Hn Hnames Hpi Hd Hjpeg Hexif Hw.
  assert (Habs : isabs (cwd fs) = true).
  { unfold normalized in Hn. apply andb_true_iff in Hn. tauto. }
  unfold _write, mkstemp, getcwd. rewrite (abspath_abs fs (cwd fs) Habs), Hpi.
  destruct (isdir fs (cwd fs)); [|discriminate].
  destruct (mkstemp_inner _ _ _ fs) as [[f|x] fs1] eqn:Hm; [|discriminate].
  apply mkstemp_inner_ok in Hm as (name & Hname & Hf & Hfresh & Hfiles1 & _ & Hcwd1).
  assert (Hfabs : isabs f = true) by (rewrite Hf; apply isabs_join, Habs).
  apply (exists_false_lookup fs f Hfabs) in Hfresh.
  assert (Hext : splitext_ext f = splitext_ext (rn_path r)).
  { rewrite Hf. apply splitext_ext_tmp; [exact Hn|].
    rewrite forallb_forall in Hnames. apply Hnames, list_elem_of_In, Hname. }
  set (dst := abspath fs (rn_path r)).
  assert (Hdst : files fs !! dst = Some d) by exact Hd.
  assert (Hne : f <> dst) by congruence.
  destruct (save_files E (rn_pixmap r) f fs1 Hfabs) as [Hcwd2 Hfiles2].
  set (fs2 := save E (rn_pixmap r) f fs1) in *.
  assert (Hsrc : read_file fs2 (rn_path r) = Some d).
  { unfold read_file, abspath. rewrite Hcwd2, Hcwd1. fold (abspath fs (rn_path r)).
    fold dst. destruct Hfiles2 as [->|(px & fmt & _ & _ & ->)];
      rewrite ?Hfiles1, !lookup_insert_ne by exact Hne; exact Hdst. }
  unfold _copy_exif, piexif_transplant. rewrite Hsrc, Hjpeg, Hexif.
  unfold piexif_insert, read_file at 1. rewrite (abspath_abs fs2 f Hfabs).
  destruct Hfiles2 as [Hfiles2|(px & fmt & Hpx & Hfmt & Hfiles2)].
  - (* nothing was saved: the temporary file is no image *)
    rewrite Hfiles2, Hfiles1, lookup_insert_eq. cbn [is_jpeg empty_file fd_format].
    cbn [is_InvalidImageDataError]. intros H.
    apply (_write_commit_files r f fs2 fs' Hfabs) in H
      as (_ & data & Hdata & [fmt Hfmt] & _).
    rewrite Hfiles2, Hfiles1, lookup_insert_eq in Hdata.
    injection Hdata as <-. discriminate.
  - rewrite Hext, Hw in Hfmt. injection Hfmt as <-.
    rewrite Hfiles2, lookup_insert_eq. cbn [is_jpeg fd_format String.eqb].
    replace (String.eqb "jpeg" "jpeg") with true by reflexivity.
    set (fs3 := log_call _ _). intros H.
    apply (_write_commit_files r f fs3 fs' Hfabs) in H
      as (Hcwd' & data & Hdata & _ & Hfinal).
    unfold fs3 in Hdata. cbn [files log_call set_files] in Hdata.
    rewrite lookup_insert_eq in Hdata. injection Hdata as <-.
    exists px. split; [exact Hpx|].
    unfold read_file, abspath. rewrite Hcwd'. unfold fs3. cbn [cwd log_call set_files].
    rewrite Hcwd2, Hcwd1.
    change (abspath fs3 (rn_path r)) with (path_join (cwd fs2) (rn_path r)) in Hfinal.
    rewrite Hcwd2, Hcwd1 in Hfinal. exact Hfinal.
Qed.

Lemma ifd_get_set (i : Ifd) (tag : Z) (v : Val) : ifd_get (ifd_set i tag v) tag = Some v.
Proof.
  induction i as [|[t w] i IH]; cbn.
  - rewrite Z.eqb_refl. reflexivity.
  - destruct (Z.eqb t tag) eqn:Ht; cbn; rewrite Ht; [reflexivity|exact IH].
Qed.

(** copy_metadata of the piexif handler onto a JPEG: what the destination
    reads afterwards is the dict the handler holds after the call. *)
Lemma piexif_copy_metadata_writes (X : Externals) (filename dest : string)
    (d : ExifDict) (reset : bool) (fs : FS) (dd : FileData) :
  read_file fs dest = Some dd ->
  is_jpeg dd = true ->
  let d' := if reset then reset_orientation_tag d else d in
  piexif_dumpable X d' = true ->
  let '(res, h', fs') := piexif_copy_metadata X filename (Some d) dest reset fs in
  res = Ok tt /\ h' = Piexif filename (Some d') /\ piexif_load fs' dest = Ok d'.
Proof.
  intros Hdd Hjpeg d' Hdump. unfold piexif_copy_metadata. fold d'. rewrite Hdump.
  unfold piexif_insert. rewrite Hdd, Hjpeg.
  repeat split. unfold piexif_load, read_file. cbn [files log_call set_files cwd abspath].
  rewrite lookup_insert_eq. rewrite is_jpeg_set_exif, Hjpeg. reflexivity.
Qed.

(** C2, as the code has it.  With piexif at hand, a write that succeeds
    over a JPEG carrying EXIF data, in JPEG again, leaves the new file with
    the EXIF data of the old one unchanged, so that the orientation tag
    reads what it read before.  copy_metadata of the piexif handler onto a
    JPEG yields a destination whose orientation reads Normal when
    reset_orientation is true, and the orientation of the source when it
    is false. *)
Theorem transplant_keeps_orientation :
  (forall (E : Env) (r : WriteImageRunner) (fs fs' : FS) (d : FileData) (e : ExifDict),
     normalized (getcwd fs) = true ->
     forallb plain_name (tmpnames fs) = true ->
     piexif E = true ->
     read_file fs (rn_path r) = Some d ->
     is_jpeg d = true ->
     fd_exif d = Some e ->
     writer_format E (splitext_ext (rn_path r)) = Some "jpeg" ->
     _write E r fs = (Ok tt, fs') ->
     piexif_load fs' (rn_path r) = Ok e /\
     orientation_of fs' (rn_path r) = orientation_of fs (rn_path r)) /\
  (forall (X : Externals) (filename dest : string) (d : ExifDict) (fs : FS) (dd : FileData),
     read_file fs dest = Some dd ->
     is_jpeg dd = true ->
     piexif_dumpable X (reset_orientation_tag d) = true ->
     fst (fst (piexif_copy_metadata X filename (Some d) dest true fs)) = Ok tt /\
     orientation_of (snd (piexif_copy_metadata X filename (Some d) dest true fs)) dest
     = Some (VInt ExifOrientation.Normal)) /\
  (forall (X : Externals) (filename dest : string) (d : ExifDict) (fs : FS) (dd : FileData),
     read_file fs dest = Some dd ->
     is_jpeg dd = true ->
     piexif_dumpable X d = true ->
     fst (fst (piexif_copy_metadata X filename (Some d) dest false fs)) = Ok tt /\
     orientation_of (snd (piexif_copy_metadata X filename (Some d) dest false fs)) dest
     = orientation d).
Proof.
  split; [|split].
  - intros E r fs fs' d e Hn Hnames Hpi Hd Hjpeg Hexif Hw Hok.
    destruct (_write_keeps_exif E r fs fs' d e Hn Hnames Hpi Hd Hjpeg Hexif Hw Hok)
      as (px & _ & Hnew).
    unfold orientation_of, piexif_load. rewrite Hnew, Hd, Hjpeg, Hexif.
    split; reflexivity.
  - intros X filename dest d fs dd Hdd Hjpeg Hdump.
    pose proof (piexif_copy_metadata_writes X filename dest d true fs dd Hdd Hjpeg Hdump) as H.
    destruct (piexif_copy_metadata X filename (Some d) dest true fs) as [[res h'] fs1].
    destruct H as (-> & _ & Hload). split; [reflexivity|].
    unfold orientation_of. cbn [snd]. rewrite Hload.
    apply ifd_get_set.
  - intros X filename dest d fs dd Hdd Hjpeg Hdump.
    pose proof (piexif_copy_metadata_writes X filename dest d false fs dd Hdd Hjpeg Hdump) as H.
    destruct (piexif_copy_metadata X filename (Some d) dest false fs) as [[res h'] fs1].
    destruct H as (-> & _ & Hload). split; [reflexivity|].
    unfold orientation_of. cbn [snd]. rewrite Hload. reflexivity.
Qed.

Lemma transplant_keeps_orientation_witness :
  let fs' := snd (_write Fixtures.with_piexif Fixtures.job_photo Fixtures.disk) in
  (piexif_load fs' "photo.jpg" = Ok Fixtures.photo_exif /\
   orientation_of fs' "photo.jpg" = orientation_of Fixtures.disk "photo.jpg") /\
  orientation_of
    (snd (piexif_copy_metadata Fixtures.piexif_only "/home/u/photo.jpg"
            (Some Fixtures.photo_exif) "/mnt/usb/old.jpg" true Fixtures.disk))
    "/mnt/usb/old.jpg"
  = Some (VInt ExifOrientation.Normal) /\
  orientation_of
    (snd (piexif_copy_metadata Fixtures.piexif_only "/home/u/photo.jpg"
            (Some Fixtures.photo_exif) "/mnt/usb/old.jpg" false Fixtures.disk))
    "/mnt/usb/old.jpg"
  = Some (VInt ExifOrientation.Rotation90).
Proof.
  destruct transplant_keeps_orientation as (Hw & Ht & Hf).
  split; [|split].
  - apply (Hw Fixtures.with_piexif Fixtures.job_photo Fixtures.disk _
             Fixtures.photo Fixtures.photo_exif);
      reflexivity.
  - apply (Ht Fixtures.piexif_only "/home/u/photo.jpg" "/mnt/usb/old.jpg"
             Fixtures.photo_exif Fixtures.disk Fixtures.photo); reflexivity.
  - apply (Hf Fixtures.piexif_only "/home/u/photo.jpg" "/mnt/usb/old.jpg"
             Fixtures.photo_exif Fixtures.disk Fixtures.photo); reflexivity.
Defined.

(** C2, as the claim has it, fails: the photo carries orientation
    Rotation90; the rotated raster is written over it with piexif at hand.
    The job succeeds, the new file holds the rotated raster, and its
    orientation tag still reads Rotation90, not Normal. *)
Lemma write_job_keeps_stale_orientation :
  let res := fst (fst (run Fixtures.with_piexif Fixtures.job_photo Fixtures.disk)) in
  let fs' := snd (fst (run Fixtures.with_piexif Fixtures.job_photo Fixtures.disk)) in
  res = Ok tt /\
  (fd_pixels <$> read_file fs' "photo.jpg") = Some Fixtures.rotated_pixels /\
  orientation_of fs' "photo.jpg" = Some (VInt ExifOrientation.Rotation90) /\
  orientation_of fs' "photo.jpg" <> Some (VInt ExifOrientation.Normal).
Proof.
  split; [vm_compute; reflexivity|]. split; [vm_compute; reflexivity|].
  split; [vm_compute; reflexivity|]. vm_compute. discriminate.
Qed.

(** ** The metadata handlers *)

Lemma strs_of_raise (l : list Val) (e : Exc) : strs_of l = Raise e -> e = TypeError.
Proof.
  revert e. induction l as [|v l IH]; cbn; [discriminate|].
  intros e. destruct v; try (intros [= <-]; reflexivity).
  destruct (strs_of l) as [ss|x]; cbn; [discriminate|].
  intros [= <-]. apply IH. reflexivity.
Qed.

Lemma tag_value_raise (t : Exiv2Tag) (e : Exc) : tag_value t = Raise e -> e = TypeError.
Proof.
  unfold tag_value. destruct (tag_human_value t); [discriminate|].
  destruct (tag_raw_value t); try discriminate.
  unfold val_join. destruct (strs_of l) eqn:Hl; cbn; [discriminate|].
  intros [= <-]. eapply strs_of_raise, Hl.
Qed.

(** A candidate fails with KeyError exactly when the key is not in the
    metadata. *)
Lemma pyexiv2_candidate_KeyError (md : ImageMetadata) (key : string) (e : Exc) :
  pyexiv2_candidate md key = Raise e -> is_KeyError e = true ->
  im_getitem md key = Raise KeyError.
Proof.
  unfold pyexiv2_candidate. destruct (im_getitem md key) as [t|x]; cbn.
  - destruct (tag_value t) eqn:Ht; cbn; [discriminate|].
    intros [= <-] He. apply tag_value_raise in Ht. subst. discriminate.
  - intros [= <-] He. destruct x; try discriminate. reflexivity.
Qed.

Lemma pyexiv2_candidate_key (md : ImageMetadata) (key : string) (t : Triple) :
  pyexiv2_candidate md key = Ok t -> fst (fst t) = key.
Proof.
  unfold pyexiv2_candidate. destruct (im_getitem md key) as [tag|]; cbn; [|discriminate].
  destruct (tag_value tag); cbn; [|discriminate]. intros [= <-]. reflexivity.
Qed.

Lemma pyexiv2_try_first (md : ImageMetadata) (base_key : string) (ps : list string)
    (i : nat) (p : string) (t : Triple) :
  ps !! i = Some p ->
  (forall j q, (j < i)%nat -> ps !! j = Some q ->
     im_getitem md (q ++ base_key) = Raise KeyError) ->
  pyexiv2_candidate md (p ++ base_key) = Ok t ->
  pyexiv2_try md base_key ps = Ok (Some t).
Proof.
  revert i. induction ps as [|q ps IH]; intros i Hi Hbefore Ht; [discriminate|].
  destruct i as [|i]; cbn in Hi |- *.
  - injection Hi as ->. rewrite Ht. reflexivity.
  - assert (Hq : im_getitem md (q ++ base_key) = Raise KeyError).
    { apply (Hbefore 0%nat q); [lia|reflexivity]. }
    unfold pyexiv2_candidate at 1. rewrite Hq. cbn.
    apply (IH i Hi); [|exact Ht].
    intros j q' Hj Hq'. apply (Hbefore (S j) q'); [lia|exact Hq'].
Qed.

Lemma pyexiv2_try_none (md : ImageMetadata) (base_key : string) (ps : list string) :
  pyexiv2_try md base_key ps = Ok None <->
  forall p, p ∈ ps -> im_getitem md (p ++ base_key) = Raise KeyError.
Proof.
  induction ps as [|q ps IH]; cbn.
  - split; [intros _ p Hp; apply elem_of_nil in Hp; contradiction|reflexivity].
  - destruct (pyexiv2_candidate md (q ++ base_key)) as [t|e] eqn:Hc.
    + split; [discriminate|]. intros H.
      unfold pyexiv2_candidate in Hc. rewrite (H q) in Hc by (apply elem_of_cons; auto).
      discriminate.
    + destruct (is_KeyError e) eqn:He.
      * rewrite IH. split.
        -- intros H p Hp. apply elem_of_cons in Hp as [->|Hp]; [|auto].
           eapply pyexiv2_candidate_KeyError; eauto.
        -- intros H p Hp. apply H, elem_of_cons. auto.
      * split; [discriminate|]. intros H.
        unfold pyexiv2_candidate in Hc. rewrite (H q) in Hc by (apply elem_of_cons; auto).
        cbn in Hc. injection Hc as <-. discriminate.
Qed.

(** C8. The pyexiv2 handler tries the key as it is, then with the prefix
    Exif.Image., then with Exif.Photo., in this order.  The first candidate
    the metadata has an entry for decides the result, whose lookup key is
    that candidate; None, the answer for a key that is not found, comes
    back exactly when the metadata has none of the three. *)
Theorem pyexiv2_fetch_key_first_match (X : Externals) (filename : string)
    (md : ImageMetadata) (base_key : string) :
  let candidates := [base_key; "Exif.Image." ++ base_key; "Exif.Photo." ++ base_key] in
  ext_fetch_key X (Pyexiv2 filename md) base_key = pyexiv2_try md base_key prefixes /\
  map (fun prefix => prefix ++ base_key) prefixes = candidates /\
  (forall (i : nat) (key : string) (t : Triple),
     candidates !! i = Some key ->
     (forall j key', (j < i)%nat -> candidates !! j = Some key' ->
        im_getitem md key' = Raise KeyError) ->
     pyexiv2_candidate md key = Ok t ->
     ext_fetch_key X (Pyexiv2 filename md) base_key = Ok (Some t) /\
     fst (fst t) = key) /\
  (ext_fetch_key X (Pyexiv2 filename md) base_key = Ok None <->
   forall key, key ∈ candidates -> im_getitem md key = Raise KeyError).
Proof.
  intros candidates.
  assert (Hc : map (fun prefix => prefix ++ base_key) prefixes = candidates)
    by reflexivity.
  split; [reflexivity|]. split; [exact Hc|]. split.
  - intros i key t Hi Hbefore Ht.
    split; [|eapply pyexiv2_candidate_key, Ht].
    cbn [ext_fetch_key]. unfold pyexiv2_fetch_key.
    rewrite <- Hc in Hi, Hbefore.
    rewrite list_lookup_fmap in Hi.
    destruct (prefixes !! i) as [p|] eqn:Hp; [|discriminate].
    cbn in Hi. injection Hi as <-.
    apply (pyexiv2_try_first md base_key prefixes i p t Hp); [|exact Ht].
    intros j q Hj Hq. apply (Hbefore j); [exact Hj|].
    rewrite list_lookup_fmap, Hq. reflexivity.
  - cbn [ext_fetch_key]. unfold pyexiv2_fetch_key.
    rewrite pyexiv2_try_none, <- Hc. split.
    + intros H key Hkey. apply list_elem_of_fmap in Hkey as (p & -> & Hp). auto.
    + intros H p Hp. apply H, list_elem_of_fmap. eauto.
Qed.

Lemma pyexiv2_fetch_key_first_match_witness :
  ext_fetch_key Fixtures.with_pyexiv2 (Pyexiv2 "/home/u/photo.jpg" Fixtures.photo_md) "FNumber"
  = Ok (Some ("Exif.Photo.FNumber", "FNumber", VStr "F2.8")) /\
  fst (fst ("Exif.Photo.FNumber", "FNumber", VStr "F2.8")) = "Exif.Photo.FNumber".
Proof.
  apply (proj1 (proj2 (proj2 (pyexiv2_fetch_key_first_match Fixtures.with_pyexiv2
                  "/home/u/photo.jpg" Fixtures.photo_md "FNumber"))) 2%nat).
  - reflexivity.
  - intros [|[|j]] key' Hj Hkey; [| |lia]; injection Hkey as <-; reflexivity.
  - reflexivity.
Defined.

(** C7, as the code has it.  Without pyexiv2 and piexif the handler is the
    base class, whose get_date_time raises UnsupportedExifOperation.  The
    piexif and the pyexiv2 handler return the empty string when the
    metadata they have loaded lack the DateTime tag, and the tag's text
    when it is there. *)
Theorem get_date_time_by_backend (X : Externals) (fs : FS) (filename : string) :
  (has_pyexiv2 X = false -> has_piexif X = false ->
   new_ExternalKeyHandler X fs filename = Ok (Base filename) /\
   get_date_time (Base filename)
   = Raise (UnsupportedExifOperation
              "Retrieving exif date-time is not supported. Please install pyexiv2 or piexif for exif support.")) /\
  (forall d : ExifDict,
     ifd_get (ifd_0th d) ImageIFD.DateTime = None ->
     get_date_time (Piexif filename (Some d)) = Ok (VStr "")) /\
  (forall (d : ExifDict) (b : string),
     ifd_get (ifd_0th d) ImageIFD.DateTime = Some (VBytes b) ->
     utf8_ok [] b = true ->
     get_date_time (Piexif filename (Some d)) = Ok (VStr b)) /\
  (forall md : ImageMetadata,
     im_getitem md "Exif.Image.DateTime" = Raise KeyError ->
     get_date_time (Pyexiv2 filename md) = Ok (VStr "")) /\
  (forall (md : ImageMetadata) (t : Exiv2Tag),
     im_getitem md "Exif.Image.DateTime" = Ok t ->
     get_date_time (Pyexiv2 filename md) = Ok (tag_raw_value t)).
Proof.
  split; [|repeat split].
  - intros Hpy Hpi. split; [|reflexivity].
    unfold new_ExternalKeyHandler, ExternalKeyHandler_class, check_external_dependancy.
    rewrite Hpy, Hpi. reflexivity.
  - intros d Hd. cbn. unfold piexif_get_date_time. rewrite Hd. reflexivity.
  - intros d b Hd Hb. cbn. unfold piexif_get_date_time. rewrite Hd.
    cbn. unfold bytes_decode. rewrite Hb. reflexivity.
  - intros md Hmd. cbn. unfold pyexiv2_get_date_time. rewrite Hmd. reflexivity.
  - intros md t Hmd. cbn. unfold pyexiv2_get_date_time. rewrite Hmd. reflexivity.
Qed.

Lemma get_date_time_by_backend_witness :
  (new_ExternalKeyHandler Fixtures.no_backend Fixtures.disk "/home/u/photo.jpg"
   = Ok (Base "/home/u/photo.jpg") /\
   get_date_time (Base "/home/u/photo.jpg")
   = Raise (UnsupportedExifOperation
              "Retrieving exif date-time is not supported. Please install pyexiv2 or piexif for exif support.")) /\
  get_date_time (Piexif "/home/u/clip.jpg" (Some empty_exif)) = Ok (VStr "") /\
  get_date_time (Piexif "/home/u/photo.jpg" (Some Fixtures.photo_exif))
  = Ok (VStr "2020:01:01 10:00:00") /\
  get_date_time (Pyexiv2 "/home/u/photo.jpg" Fixtures.no_tags) = Ok (VStr "") /\
  get_date_time (Pyexiv2 "/home/u/photo.jpg" Fixtures.photo_md)
  = Ok (VStr "2020:01:01 10:00:00").
Proof.
  split; [|split; [|split; [|split]]].
  - exact (proj1 (get_date_time_by_backend Fixtures.no_backend Fixtures.disk
                    "/home/u/photo.jpg") eq_refl eq_refl).
  - exact (proj1 (proj2 (get_date_time_by_backend Fixtures.no_backend Fixtures.disk
                           "/home/u/clip.jpg")) empty_exif eq_refl).
  - exact (proj1 (proj2 (proj2 (get_date_time_by_backend Fixtures.no_backend Fixtures.disk
                                  "/home/u/photo.jpg")))
             Fixtures.photo_exif "2020:01:01 10:00:00" eq_refl eq_refl).
  - exact (proj1 (proj2 (proj2 (proj2 (get_date_time_by_backend Fixtures.no_backend
                                         Fixtures.disk "/home/u/photo.jpg"))))
             Fixtures.no_tags eq_refl).
  - exact (proj2 (proj2 (proj2 (proj2 (get_date_time_by_backend Fixtures.no_backend
                                         Fixtures.disk "/home/u/photo.jpg"))))
             Fixtures.photo_md _ eq_refl).
Defined.

(** C7, as the claim has it, fails: without a metadata library the
    handler made for the photo is the base class, and asking it for the
    date raises. *)
Lemma get_date_time_raises_without_backend :
  exists h,
    new_ExternalKeyHandler Fixtures.no_backend Fixtures.disk "/home/u/photo.jpg" = Ok h /\
    get_date_time h
    = Raise (UnsupportedExifOperation
               "Retrieving exif date-time is not supported. Please install pyexiv2 or piexif for exif support.") /\
    returns (get_date_time h) = false.
Proof. eexists. repeat split. Qed.

Lemma piexif_names_known (X : Externals) (l : list (string * Z)) :
  (forall ifd tag, (ifd, tag) ∈ l -> is_Some (TAGS X ifd tag)) ->
  gen_end (piexif_names X l) = None.
Proof.
  induction l as [|[ifd tag] l IH]; intros Hl; [reflexivity|].
  cbn. destruct (Hl ifd tag) as [[name ty] ->]; [apply elem_of_cons; auto|].
  cbn. apply IH. intros i t Hit. apply Hl, elem_of_cons. auto.
Qed.

(** C5, as the code has it.  Without pyexiv2 and piexif, get_keys raises
    UnsupportedExifOperation, as its docstring says.  With pyexiv2, for an
    image whose metadata are read and can be iterated, get_keys returns
    the names of the four internal keys followed by the keys of the image;
    the keys whose last component is a hexadecimal number are left out
    without a word.  With piexif, for an image whose EXIF data load and
    whose tags are all in piexif's table, it returns the internal names
    followed by the names of the tags. *)
Theorem get_keys_by_backend (X : Externals) (fs : FS) (h : MetadataHandler) :
  _ext_handler h = None ->
  (has_pyexiv2 X = false -> has_piexif X = false ->
   fst (get_keys X fs h)
   = Raise (UnsupportedExifOperation
              "Getting exif keys is not supported. Please install pyexiv2 or piexif for exif support.")) /\
  (forall (md : ImageMetadata) (g : Gen),
     has_pyexiv2 X = true ->
     pyexiv2_read X fs (filename h) = Ok md ->
     im_iter md = Ok g ->
     fst (get_keys X fs h)
     = Ok {| gen_items :=
               (["Vimiv.FileSize"; "Vimiv.XDimension"; "Vimiv.YDimension"; "Vimiv.FileType"]
                ++ List.filter (fun key => negb (is_hex X (rpartition_tail "." key)))
                     (gen_items g))%list;
             gen_end := gen_end g |}) /\
  (forall d : ExifDict,
     has_pyexiv2 X = false -> has_piexif X = true ->
     piexif_load fs (filename h) = Ok d ->
     (forall ifd tag, (ifd, tag) ∈ piexif_entries d -> is_Some (TAGS X ifd tag)) ->
     fst (get_keys X fs h)
     = Ok {| gen_items :=
               (["Vimiv.FileSize"; "Vimiv.XDimension"; "Vimiv.YDimension"; "Vimiv.FileType"]
                ++ gen_items (piexif_names X (piexif_entries d)))%list;
             gen_end := None |}).
Proof.
  intros Hext.
  assert (Hint : _ext_handler (snd (_internal_handler h)) = None /\
                 filename (snd (_internal_handler h)) = filename h).
  { unfold _internal_handler. destruct (_int_handler h); auto. }
  destruct Hint as [H1 Hfn]. split; [|split].
  - intros Hpy Hpi. unfold get_keys.
    destruct (_internal_handler h) as [ih h1]. cbn [snd] in *.
    unfold _external_handler, new_ExternalKeyHandler, ExternalKeyHandler_class,
      check_external_dependancy.
    rewrite H1, Hpy, Hpi. reflexivity.
  - intros md g Hpy Hread Hiter. unfold get_keys.
    destruct (_internal_handler h) as [ih h1]. cbn [snd] in *.
    unfold _external_handler, new_ExternalKeyHandler, ExternalKeyHandler_class,
      check_external_dependancy, new_Pyexiv2.
    rewrite H1, Hpy, Hfn, Hread. cbn. unfold pyexiv2_get_keys. rewrite Hiter.
    reflexivity.
  - intros d Hpy Hpi Hload Hknown. unfold get_keys.
    destruct (_internal_handler h) as [ih h1]. cbn [snd] in *.
    unfold _external_handler, new_ExternalKeyHandler, ExternalKeyHandler_class,
      check_external_dependancy, new_Piexif.
    rewrite H1, Hpy, Hpi, Hfn, Hload. cbn [fst ext_get_keys piexif_get_keys bind].
    unfold chain. cbn [internal_get_keys gen_end gen_items].
    rewrite (piexif_names_known X _ Hknown). reflexivity.
Qed.

Lemma get_keys_by_backend_witness :
  fst (get_keys Fixtures.no_backend Fixtures.disk (new_MetadataHandler "/home/u/photo.jpg"))
  = Raise (UnsupportedExifOperation
             "Getting exif keys is not supported. Please install pyexiv2 or piexif for exif support.") /\
  fst (get_keys Fixtures.with_pyexiv2 Fixtures.disk (new_MetadataHandler "/home/u/photo.jpg"))
  = Ok {| gen_items :=
            ["Vimiv.FileSize"; "Vimiv.XDimension"; "Vimiv.YDimension"; "Vimiv.FileType";
             "Exif.Image.Orientation"; "Exif.Image.DateTime"; "Exif.Photo.FNumber";
             "Iptc.Application2.Keywords"];
          gen_end := None |} /\
  fst (get_keys Fixtures.piexif_only Fixtures.disk (new_MetadataHandler "/home/u/photo.jpg"))
  = Ok {| gen_items :=
            ["Vimiv.FileSize"; "Vimiv.XDimension"; "Vimiv.YDimension"; "Vimiv.FileType";
             "Orientation"; "DateTime"];
          gen_end := None |}.
Proof.
  split; [|split].
  - exact (proj1 (get_keys_by_backend Fixtures.no_backend Fixtures.disk
                    (new_MetadataHandler "/home/u/photo.jpg") eq_refl) eq_refl eq_refl).
  - exact (proj1 (proj2 (get_keys_by_backend Fixtures.with_pyexiv2 Fixtures.disk
                           (new_MetadataHandler "/home/u/photo.jpg") eq_refl))
             Fixtures.photo_md _ eq_refl eq_refl eq_refl).
  - apply (proj2 (proj2 (get_keys_by_backend Fixtures.piexif_only Fixtures.disk
                           (new_MetadataHandler "/home/u/photo.jpg") eq_refl))
             Fixtures.photo_exif eq_refl eq_refl eq_refl).
    intros ifd tag Hin.
    repeat (apply elem_of_cons in Hin as [[= -> ->]|Hin]; [vm_compute; eauto|]).
    apply elem_of_nil in Hin. contradiction.
Defined.

(** C5, as the claim has it, fails: without a metadata library get_keys
    on the photo raises instead of returning the internal keys. *)
Lemma get_keys_raises_without_backend :
  returns (fst (get_keys Fixtures.no_backend Fixtures.disk
                  (new_MetadataHandler "/home/u/photo.jpg"))) = false /\
  fst (get_keys Fixtures.no_backend Fixtures.disk (new_MetadataHandler "/home/u/photo.jpg"))
  = Raise (UnsupportedExifOperation
             "Getting exif keys is not supported. Please install pyexiv2 or piexif for exif support.").
Proof. split; reflexivity. Qed.

(** A key in the vimiv namespace is answered by the internal handler; the
    external handler is neither made nor asked. *)
Lemma fetch_key_internal (X : Externals) (fs : FS) (h : MetadataHandler) (key : string) :
  startswith (lower key) "vimiv" = true ->
  _ext_handler (snd (fetch_key X fs h key)) = _ext_handler h /\
  fst (fetch_key X fs h key)
  = bind (fst (internal_getitem X fs (fst (_internal_handler h)) key))
         (fun t => Ok (Some t)).
Proof.
  intros Hk. unfold fetch_key. rewrite Hk.
  assert (Hint : _ext_handler (snd (_internal_handler h)) = _ext_handler h).
  { unfold _internal_handler. destruct (_int_handler h); reflexivity. }
  destruct (_internal_handler h) as [ih h1]. cbn [fst snd] in *.
  destruct (internal_getitem X fs ih key) as [r ih']. cbn [fst snd].
  split; [exact Hint|reflexivity].
Qed.

(** Of the keys in the namespace, only the four of the dict resolve; any
    other is a TypeError. *)
Lemma fetch_key_internal_unknown (X : Externals) (fs : FS) (h : MetadataHandler)
    (key : string) :
  startswith (lower key) "vimiv" = true ->
  dict_get internal_keys (lower key) = None ->
  fst (fetch_key X fs h key) = Raise TypeError.
Proof.
  intros Hk Hd. rewrite (proj2 (fetch_key_internal X fs h key Hk)).
  unfold internal_getitem. rewrite Hd. reflexivity.
Qed.

Lemma fetch_key_unsupported (X : Externals) (fs : FS) (h : MetadataHandler) (key : string) :
  has_pyexiv2 X = false -> has_piexif X = false ->
  _ext_handler h = None ->
  startswith (lower key) "vimiv" = false ->
  fst (fetch_key X fs h key)
  = Raise (UnsupportedExifOperation
             "Getting formatted keys is not supported. Please install pyexiv2 or piexif for exif support.").
Proof.
  intros Hpy Hpi Hext Hk. unfold fetch_key. rewrite Hk.
  unfold _external_handler, new_ExternalKeyHandler, ExternalKeyHandler_class,
    check_external_dependancy.
  rewrite Hext, Hpy, Hpi. reflexivity.
Qed.

Lemma fetch_keys_loop_cons (resolve : KeyMethod) (fs : FS) (base_key : string)
    (rest : list string) (st : gmap string (string * Val) * MetadataHandler) :
  fetch_keys_loop resolve fs (base_key :: rest) st
  = bind (fetch_keys_step resolve fs base_key st) (fetch_keys_loop resolve fs rest).
Proof. reflexivity. Qed.

(** C3, as the code has it.  Without pyexiv2 and piexif, resolving
    DateTime through fetch_key raises UnsupportedExifOperation, which the
    loop of fetch_keys does not swallow: the loop run over fetch_key on
    vimiv.filesize and DateTime raises, and so does fetch_keys.  In the
    loop, a key is dropped when its resolution gives None or raises
    KeyError or TypeError; any other exception ends the batch. *)
Theorem fetch_keys_without_backend (X : Externals) (fs : FS) (path : string) :
  has_pyexiv2 X = false -> has_piexif X = false ->
  let h := new_MetadataHandler path in
  let unsupported :=
    UnsupportedExifOperation
      "Getting formatted keys is not supported. Please install pyexiv2 or piexif for exif support." in
  fst (fetch_key X fs h "DateTime") = Raise unsupported /\
  returns (fetch_keys_loop (fetch_key X) fs ["vimiv.filesize"; "DateTime"] (∅, h)) = false /\
  (returns (get_size_file X fs path) = true ->
   fetch_keys_loop (fetch_key X) fs ["vimiv.filesize"; "DateTime"] (∅, h) = Raise unsupported) /\
  returns (fetch_keys X fs h ["vimiv.filesize"; "DateTime"]) = false /\
  (forall (resolve : KeyMethod) (base_key : string) (rest : list string)
          (metadata : gmap string (string * Val)) (h0 : MetadataHandler) (e : Exc),
     fst (resolve fs h0 (strip base_key)) = Raise e ->
     is_KeyError e || is_TypeError e = false ->
     fetch_keys_loop resolve fs (base_key :: rest) (metadata, h0) = Raise e) /\
  (forall (resolve : KeyMethod) (base_key : string) (rest : list string)
          (metadata : gmap string (string * Val)) (h0 : MetadataHandler),
     (fst (resolve fs h0 (strip base_key)) = Ok None \/
      exists e, fst (resolve fs h0 (strip base_key)) = Raise e /\
                is_KeyError e || is_TypeError e = true) ->
     fetch_keys_loop resolve fs (base_key :: rest) (metadata, h0)
     = fetch_keys_loop resolve fs rest (metadata, snd (resolve fs h0 (strip base_key)))).
Proof.
  intros Hpy Hpi h unsupported.
  assert (Hdt : forall h0, _ext_handler h0 = None ->
            fst (fetch_key X fs h0 "DateTime") = Raise unsupported).
  { intros h0 H0. apply fetch_key_unsupported; auto. }
  assert (Hloop : forall m h0, _ext_handler h0 = None ->
            fetch_keys_loop (fetch_key X) fs ["DateTime"] (m, h0) = Raise unsupported).
  { intros m h0 H0. rewrite fetch_keys_loop_cons. unfold fetch_keys_step.
    specialize (Hdt h0 H0). change (strip "DateTime") with "DateTime".
    destruct (fetch_key X fs h0 "DateTime") as [r h1]. cbn [fst] in Hdt. rewrite Hdt.
    reflexivity. }
  assert (Hfirst : forall r h1, fetch_key X fs h "vimiv.filesize" = (r, h1) ->
            _ext_handler h1 = None /\
            r = bind (get_size_file X fs path)
                  (fun v => Ok (Some ("Vimiv.FileSize", "Vimiv.FileSize", v)))).
  { intros r h1 H1.
    destruct (fetch_key_internal X fs h "vimiv.filesize" eq_refl) as [He Hr].
    rewrite H1 in He, Hr. cbn [fst snd] in He, Hr. split; [exact He|].
    rewrite Hr. unfold internal_getitem.
    change (dict_get internal_keys (lower "vimiv.filesize"))
      with (Some ("Vimiv.FileSize", _get_filesize)).
    cbn [call_getter fst snd]. change (ik_path (_internal_handler h).1) with path.
    destruct (get_size_file X fs path); reflexivity. }
  assert (Hboth : match get_size_file X fs path with
                  | Ok _ => fetch_keys_loop (fetch_key X) fs ["vimiv.filesize"; "DateTime"] (∅, h)
                            = Raise unsupported
                  | Raise e =>
                      fetch_keys_loop (fetch_key X) fs ["vimiv.filesize"; "DateTime"] (∅, h)
                      = Raise (if is_KeyError e || is_TypeError e then unsupported else e)
                  end).
  { rewrite fetch_keys_loop_cons. unfold fetch_keys_step. change (strip "vimiv.filesize") with "vimiv.filesize".
    destruct (fetch_key X fs h "vimiv.filesize") as [r h1] eqn:H1.
    destruct (Hfirst r h1 eq_refl) as [He ->].
    destruct (get_size_file X fs path) as [v|e]; cbn [bind].
    - apply Hloop, He.
    - destruct (is_KeyError e || is_TypeError e); cbn [bind]; [apply Hloop, He|reflexivity]. }
  split; [apply Hdt; reflexivity|]. split; [|split; [|split; [|split]]].
  - destruct (get_size_file X fs path); rewrite Hboth; reflexivity.
  - destruct (get_size_file X fs path); [intros _; exact Hboth|discriminate].
  - reflexivity.
  - intros resolve base_key rest metadata h0 e Hr He.
    rewrite fetch_keys_loop_cons. unfold fetch_keys_step.
    destruct (resolve fs h0 (strip base_key)) as [r h1]. cbn [fst] in Hr. rewrite Hr, He.
    reflexivity.
  - intros resolve base_key rest metadata h0 Hr.
    rewrite fetch_keys_loop_cons. unfold fetch_keys_step.
    destruct (resolve fs h0 (strip base_key)) as [r h1]. cbn [fst snd] in *.
    destruct Hr as [->|(e & -> & He)]; [reflexivity|]. rewrite He. reflexivity.
Qed.

Lemma fetch_keys_without_backend_witness :
  let h := new_MetadataHandler "/home/u/photo.jpg" in
  let unsupported :=
    UnsupportedExifOperation
      "Getting formatted keys is not supported. Please install pyexiv2 or piexif for exif support." in
  fst (fetch_key Fixtures.no_backend Fixtures.disk h "DateTime") = Raise unsupported /\
  fetch_keys_loop (fetch_key Fixtures.no_backend) Fixtures.disk
    ["vimiv.filesize"; "DateTime"] (∅, h) = Raise unsupported /\
  returns (fetch_keys Fixtures.no_backend Fixtures.disk h ["vimiv.filesize"; "DateTime"])
  = false /\
  fetch_keys_loop (fetch_key Fixtures.no_backend) Fixtures.disk ["DateTime"] (∅, h)
  = Raise unsupported /\
  fetch_keys_loop (fetch_key Fixtures.no_backend) Fixtures.disk ["vimivfoo"] (∅, h)
  = fetch_keys_loop (fetch_key Fixtures.no_backend) Fixtures.disk []
      (∅, snd (fetch_key Fixtures.no_backend Fixtures.disk h (strip "vimivfoo"))).
Proof.
  intros h unsupported.
  destruct (fetch_keys_without_backend Fixtures.no_backend Fixtures.disk
              "/home/u/photo.jpg" eq_refl eq_refl)
    as (Hdt & _ & Hloop & Hkeys & Hraise & Hdrop).
  split; [exact Hdt|]. split; [exact (Hloop eq_refl)|]. split; [exact Hkeys|].
  split.
  - apply (Hraise (fetch_key Fixtures.no_backend) "DateTime" [] ∅ h unsupported);
      reflexivity.
  - apply (Hdrop (fetch_key Fixtures.no_backend) "vimivfoo" [] ∅ h).
    right. exists TypeError. split; reflexivity.
Defined.

(** C3, as the claim has it, fails: without a metadata library, fetch_keys
    on vimiv.filesize and DateTime raises instead of returning a mapping,
    and so does its loop when it is run over fetch_key: the exception of
    the base handler is none of those the loop swallows. *)
Lemma fetch_keys_raises_without_backend :
  let h := new_MetadataHandler "/home/u/photo.jpg" in
  returns (fetch_keys Fixtures.no_backend Fixtures.disk h ["vimiv.filesize"; "DateTime"])
  = false /\
  fetch_keys_loop (fetch_key Fixtures.no_backend) Fixtures.disk
    ["vimiv.filesize"; "DateTime"] (∅, h)
  = Raise (UnsupportedExifOperation
             "Getting formatted keys is not supported. Please install pyexiv2 or piexif for exif support.").
Proof. split; vm_compute; reflexivity. Qed.

(** C10 on the code.  The key vimivfoo goes to the internal handler, which
    answers with a TypeError, and no external handler is made; the loop of
    fetch_keys run over fetch_key drops the key and returns the empty
    mapping.  fetch_keys itself calls the name _fetch_key, which the
    handler does not have, and raises AttributeError. *)
Theorem fetch_keys_unknown_vimiv_key :
  let h := new_MetadataHandler "/home/u/photo.jpg" in
  startswith (lower "vimivfoo") "vimiv" = true /\
  fst (fetch_key Fixtures.with_pyexiv2 Fixtures.disk h "vimivfoo") = Raise TypeError /\
  _ext_handler (snd (fetch_key Fixtures.with_pyexiv2 Fixtures.disk h "vimivfoo")) = None /\
  match fetch_keys_loop (fetch_key Fixtures.with_pyexiv2) Fixtures.disk ["vimivfoo"] (∅, h)
  with
  | Ok (metadata, _) => metadata = ∅
  | Raise _ => False
  end /\
  existsb (String.eqb "_fetch_key") attributes = false /\
  fetch_keys Fixtures.with_pyexiv2 Fixtures.disk h ["vimivfoo"] = Raise AttributeError.
Proof. repeat split; vm_compute; reflexivity. Qed.

(** * Further properties *)

(** ** What a write job changes *)

Import Outcome.

(** X1. A runner whose destination exists but cannot be read as an image
    (another kind of file, or a directory) logs that the path exists and is
    not an image; the file system stays exactly as it was. *)
Theorem run_rejects_non_image_destination (E : Env) (r : WriteImageRunner) (fs : FS) :
  isinstance_QPixmap (rn_pixmap r) = true ->
  exists_ fs (rn_path r) = true ->
  canRead fs (rn_path r) = false ->
  run E r fs
  = (Ok tt, fs,
     [Info ("Saving " ++ rn_path r ++ "...");
      Error ("Path '" ++ rn_path r ++ "' exists and is not an image")]).
Proof.
  intros Hk Hex Hread. unfold run, _can_write. rewrite Hk, Hex, Hread. reflexivity.
Qed.

Lemma run_rejects_non_image_destination_witness :
  run Fixtures.with_piexif Samples.job_notes Samples.desk
  = (Ok tt, Samples.desk,
     [Info "Saving notes.txt...";
      Error "Path 'notes.txt' exists and is not an image"]).
Proof.
  apply (run_rejects_non_image_destination Fixtures.with_piexif Samples.job_notes
           Samples.desk); vm_compute; reflexivity.
Defined.

(** The steps of a write, by what they leave alone. *)

Lemma mkstemp_inner_env (dir suffix : string) (names : list string) (fs : FS) :
  cwd (snd (mkstemp_inner dir suffix names fs)) = cwd fs /\
  dirs (snd (mkstemp_inner dir suffix names fs)) = dirs fs /\
  exists k, tmpnames (snd (mkstemp_inner dir suffix names fs)) = drop k names.
Proof.
  induction names as [|name rest IH]; cbn.
  - repeat split. exists 0%nat. reflexivity.
  - destruct (exists_ fs (path_join dir ("tmp" ++ name ++ suffix))).
    + destruct IH as (Hc & Hd & k & Hk). repeat split; auto. exists (S k). exact Hk.
    + repeat split. exists 1%nat. reflexivity.
Qed.

Lemma mkstemp_inner_raise (dir suffix : string) (names : list string) (fs fs1 : FS)
    (e : Exc) :
  mkstemp_inner dir suffix names fs = (Raise e, fs1) -> files fs1 = files fs.
Proof.
  induction names as [|name rest IH]; cbn.
  - intros [= _ <-]. reflexivity.
  - destruct (exists_ fs (path_join dir ("tmp" ++ name ++ suffix))); [exact IH|discriminate].
Qed.

Lemma save_env (E : Env) (o : option QObj) (f : string) (fs : FS) :
  dirs (save E o f fs) = dirs fs /\ tmpnames (save E o f fs) = tmpnames fs.
Proof.
  unfold save. destruct o as [[px|]|]; auto.
  destruct (writer_format E (splitext_ext f)); auto.
  destruct (_ || _); auto.
Qed.

(** What _copy_exif does to the files when it returns. *)
Lemma _copy_exif_ok (src dest : string) (fs fs3 : FS) :
  _copy_exif src dest fs = (Ok tt, fs3) ->
  cwd fs3 = cwd fs /\ dirs fs3 = dirs fs /\ tmpnames fs3 = tmpnames fs /\
  exists s, read_file fs src = Some s /\
    ((is_jpeg s = false /\ files fs3 = files fs) \/
     (exists e dd, is_jpeg s = true /\ fd_exif s = Some e /\
        read_file fs dest = Some dd /\
        files fs3 = if is_jpeg dd
                    then <[abspath fs dest := set_exif e dd]> (files fs)
                    else files fs)).
Proof.
  unfold _copy_exif, piexif_transplant.
  destruct (read_file fs src) as [s|]; [|discriminate].
  destruct (is_jpeg s) eqn:Hs.
  - destruct (fd_exif s) as [e|] eqn:He; [|discriminate].
    unfold piexif_insert. destruct (read_file fs dest) as [dd|]; [|discriminate].
    destruct (is_jpeg dd) eqn:Hdd; intros [= <-]; repeat split;
      exists s; split; try reflexivity; right; exists e, dd; rewrite ?Hdd;
      repeat split; auto.
  - intros [= <-]. repeat split. exists s. auto.
Qed.

Lemma _copy_exif_raise (src dest : string) (fs fs3 : FS) (e : Exc) :
  _copy_exif src dest fs = (Raise e, fs3) -> fs3 = fs.
Proof.
  unfold _copy_exif, piexif_transplant.
  destruct (read_file fs src) as [s|]; [|intros [= _ <-]; reflexivity].
  destruct (is_jpeg s); [|discriminate].
  destruct (fd_exif s) as [x|]; [|intros [= _ <-]; reflexivity].
  unfold piexif_insert. destruct (read_file fs dest) as [dd|]; [|intros [= _ <-]; reflexivity].
  destruct (is_jpeg dd); discriminate.
Qed.

(** What _write_commit does to the files: the rename fails and nothing
    changes, or it moves the temporary file onto the destination, and a
    destination that is then no image is removed again. *)
Lemma _write_commit_cases (r : WriteImageRunner) (f : string) (fs : FS) :
  isabs f = true ->
  let dst := abspath fs (rn_path r) in
  let res := fst (_write_commit r f fs) in
  let fs' := snd (_write_commit r f fs) in
  cwd fs' = cwd fs /\ dirs fs' = dirs fs /\ tmpnames fs' = tmpnames fs /\
  ((fs' = fs /\ exists e, res = Raise e /\ is_WriteError e = false) \/
   (exists data, files fs !! f = Some data /\ is_Some (fd_format data) /\
      files fs' = <[dst := data]> (delete f (files fs)) /\ res = Ok tt) \/
   (exists data, files fs !! f = Some data /\ fd_format data = None /\
      files fs' = delete dst (<[dst := data]> (delete f (files fs))) /\
      res = Raise (WriteError "No valid image written. Is the extention valid?"))).
Proof.
  intros Hf dst. unfold _write_commit, rename. rewrite (abspath_abs fs f Hf). fold dst.
  destruct (files fs !! f) as [data|] eqn:Hdata; cbn [fst snd].
  2:{ repeat split. left. split; [reflexivity|]. eexists. split; reflexivity. }
  destruct (isdir fs dst) eqn:Hdir; cbn [fst snd].
  { repeat split. left. split; [reflexivity|]. eexists. split; reflexivity. }
  destruct (dirs fs !! dirname f) as [d1|], (dirs fs !! dirname dst) as [d2|];
    cbn [fst snd];
    try (repeat split; left; split; [reflexivity|]; eexists; split; reflexivity).
  destruct (d1 =? d2)%nat; cbn [fst snd];
    [|repeat split; left; split; [reflexivity|]; eexists; split; reflexivity].
  set (fs1 := log_call _ _).
  assert (Hl : read_file fs1 (rn_path r) = Some data).
  { unfold read_file, fs1. cbn. apply lookup_insert_eq. }
  assert (Hdir1 : isdir fs1 (abspath fs1 (rn_path r)) = false) by exact Hdir.
  unfold isfile, is_image. rewrite Hl.
  rewrite bool_decide_eq_true_2 by eauto. cbn [negb].
  destruct (bool_decide (is_Some (fd_format data))) eqn:Hfmt; cbn [negb fst snd].
  - apply bool_decide_eq_true in Hfmt.
    split; [reflexivity|]. split; [reflexivity|]. split; [reflexivity|].
    right. left. exists data. auto.
  - apply bool_decide_eq_false in Hfmt.
    assert (Hnone : fd_format data = None).
    { destruct (fd_format data); [exfalso; apply Hfmt; eauto|reflexivity]. }
    unfold remove. rewrite Hdir1.
    change (files fs1 !! abspath fs1 (rn_path r)) with (read_file fs1 (rn_path r)).
    rewrite Hl. cbn [fst snd].
    split; [reflexivity|]. split; [reflexivity|]. split; [reflexivity|].
    right. right. exists data. auto.
Qed.

Lemma _copy_exif_raise_kind (src dest : string) (fs fs3 : FS) (e : Exc) :
  _copy_exif src dest fs = (Raise e, fs3) -> is_WriteError e = false.
Proof.
  unfold _copy_exif, piexif_transplant.
  destruct (read_file fs src) as [s|]; [|intros [= <- _]; reflexivity].
  destruct (is_jpeg s); [|discriminate].
  destruct (fd_exif s) as [x|]; [|intros [= <- _]; reflexivity].
  unfold piexif_insert. destruct (read_file fs dest) as [dd|]; [|intros [= <- _]; reflexivity].
  destruct (is_jpeg dd); discriminate.
Qed.

Lemma delete_fresh_insert (m : gmap string FileData) (f : string) (c : FileData) :
  m !! f = None -> delete f (<[f := c]> m) = m.
Proof. intros H. rewrite delete_insert_eq. apply delete_id, H. Qed.

(** The four ways a write can end: no temporary file could be made; an
    exception other than WriteError escaped and the temporary file is left
    behind; the image is at the destination; or what was moved to the
    destination was no image and the destination is gone. *)
Lemma _write_outcome (E : Env) (r : WriteImageRunner) (fs : FS) :
  normalized (getcwd fs) = true ->
  forallb plain_name (tmpnames fs) = true ->
  let dst := abspath fs (rn_path r) in
  let res := fst (_write E r fs) in
  let fs' := snd (_write E r fs) in
  cwd fs' = cwd fs /\ dirs fs' = dirs fs /\
  (exists k, tmpnames fs' = drop k (tmpnames fs)) /\
  ((files fs' = files fs /\ exists e, res = Raise e /\ is_WriteError e = false) \/
   (exists f c, files fs !! f = None /\ dirname f = cwd fs /\
      files fs' = <[f := c]> (files fs) /\
      exists e, res = Raise e /\ is_WriteError e = false) \/
   (exists px fmt, rn_pixmap r = Some (QPixmap px) /\
      writer_format E (splitext_ext (rn_path r)) = Some fmt /\
      files fs' = <[dst := image_file fmt px (expected_exif E fs r fmt)]> (files fs) /\
      res = Ok tt) \/
   (files fs' = delete dst (files fs) /\
    res = Raise (WriteError "No valid image written. Is the extention valid?"))).
Proof.
  intros Hn Hnames dst res fs'. subst res fs'. unfold getcwd in Hn.
  assert (Habs : isabs (cwd fs) = true).
  { unfold normalized in Hn. apply andb_true_iff in Hn. tauto. }
  unfold _write, mkstemp, getcwd. rewrite (abspath_abs fs (cwd fs) Habs).
  destruct (isdir fs (cwd fs)); cbn [fst snd].
  2:{ repeat split; [exists 0%nat; reflexivity|]. left. split; [reflexivity|].
      eexists. split; reflexivity. }
  destruct (mkstemp_inner_env (cwd fs) (splitext_ext (rn_path r)) (tmpnames fs) fs)
    as (Hcwd1 & Hdirs1 & k & Hk).
  destruct (mkstemp_inner _ _ _ fs) as [[f|x] fs1] eqn:Hm; cbn [fst snd] in *.
  2:{ split; [exact Hcwd1|]. split; [exact Hdirs1|]. split; [eauto|]. left.
      split; [eapply mkstemp_inner_raise, Hm|].
      exists x. split; [reflexivity|].
      clear -Hm. revert Hm. generalize (tmpnames fs). intros l. induction l as [|n l IH]; cbn.
      - intros [= <- _]. reflexivity.
      - destruct (exists_ fs _); [exact IH|discriminate]. }
  apply mkstemp_inner_ok in Hm as (name & Hname & Hf & Hfresh & Hfiles1 & _ & _).
  assert (Hplain : plain_name name = true).
  { rewrite forallb_forall in Hnames. apply Hnames, list_elem_of_In, Hname. }
  assert (Hfabs : isabs f = true) by (rewrite Hf; apply isabs_join, Habs).
  apply (exists_false_lookup fs f Hfabs) in Hfresh.
  assert (Hext : splitext_ext f = splitext_ext (rn_path r)).
  { rewrite Hf. apply splitext_ext_tmp; assumption. }
  assert (Hdirname : dirname f = cwd fs).
  { rewrite Hf. apply dirname_join; [exact Hn|reflexivity|].
    apply andb_true_iff in Hplain as [Hs _]. apply negb_true_iff in Hs.
    rewrite !has_char_app, Hs, splitext_ext_no_slash. reflexivity. }
  (* the temporary file after save *)
  destruct (save_files E (rn_pixmap r) f fs1 Hfabs) as [Hcwd2 Hfiles2].
  destruct (save_env E (rn_pixmap r) f fs1) as [Hdirs2 Htmp2].
  set (fs2 := save E (rn_pixmap r) f fs1) in *.
  assert (H2 : exists c2, files fs2 = <[f := c2]> (files fs) /\
            (c2 = empty_file \/
             exists px fmt, rn_pixmap r = Some (QPixmap px) /\
               writer_format E (splitext_ext (rn_path r)) = Some fmt /\
               c2 = image_file fmt px None)).
  { destruct Hfiles2 as [->|(px & fmt & Hpx & Hfmt & ->)].
    - exists empty_file. split; [exact Hfiles1|]. left. reflexivity.
    - exists (image_file fmt px None). rewrite Hfiles1, insert_insert_eq.
      split; [reflexivity|]. right. exists px, fmt. rewrite <- Hext. auto. }
  destruct H2 as (c2 & Hf2 & Hc2).
  assert (Hexif2 : fd_exif c2 = None).
  { destruct Hc2 as [->|(px & fmt & _ & _ & ->)]; reflexivity. }
  assert (Hsrc2 : f <> dst -> read_file fs2 (rn_path r) = read_file fs (rn_path r)).
  { intros Hne. unfold read_file, abspath. rewrite Hcwd2, Hcwd1.
    fold (abspath fs (rn_path r)). fold dst. rewrite Hf2, lookup_insert_ne by exact Hne.
    reflexivity. }
  assert (Hsrc2' : f = dst -> read_file fs2 (rn_path r) = Some c2 /\
                              read_file fs (rn_path r) = None).
  { intros He. unfold read_file, abspath. rewrite Hcwd2, Hcwd1.
    fold (abspath fs (rn_path r)). fold dst. rewrite Hf2, <- He, lookup_insert_eq.
    auto. }
  (* the temporary file after _copy_exif *)
  assert (H3 : forall fs3, cwd fs3 = cwd fs -> dirs fs3 = dirs fs ->
            tmpnames fs3 = tmpnames fs1 ->
            forall c3, files fs3 = <[f := c3]> (files fs) ->
            (fd_format c3 = None \/
             exists px fmt, rn_pixmap r = Some (QPixmap px) /\
               writer_format E (splitext_ext (rn_path r)) = Some fmt /\
               c3 = image_file fmt px (expected_exif E fs r fmt)) ->
            let res := fst (_write_commit r f fs3) in
            let fs' := snd (_write_commit r f fs3) in
            cwd fs' = cwd fs /\ dirs fs' = dirs fs /\
            (exists k, tmpnames fs' = drop k (tmpnames fs)) /\
            ((files fs' = files fs /\ exists e, res = Raise e /\ is_WriteError e = false) \/
             (exists f c, files fs !! f = None /\ dirname f = cwd fs /\
                files fs' = <[f := c]> (files fs) /\
                exists e, res = Raise e /\ is_WriteError e = false) \/
             (exists px fmt, rn_pixmap r = Some (QPixmap px) /\
                writer_format E (splitext_ext (rn_path r)) = Some fmt /\
                files fs' = <[dst := image_file fmt px (expected_exif E fs r fmt)]> (files fs) /\
                res = Ok tt) \/
             (files fs' = delete dst (files fs) /\
              res = Raise (WriteError "No valid image written. Is the extention valid?")))).
  { intros fs3 Hc3 Hd3 Ht3 c3 Hf3 Hshape.
    destruct (_write_commit_cases r f fs3 Hfabs) as (Hc4 & Hd4 & Ht4 & Hcases).
    assert (Hdst : abspath fs3 (rn_path r) = dst) by (unfold dst, abspath; congruence).
    rewrite Hdst in Hcases.
    split; [congruence|]. split; [congruence|].
    split; [exists k; rewrite Ht4, Ht3; exact Hk|].
    destruct Hcases as [[Heq He]|[(data & Hdata & Hfmt & Hfiles & Hres)
                                 |(data & Hdata & Hfmt & Hfiles & Hres)]].
    - right. left. exists f, c3. rewrite Heq. auto.
    - rewrite Hf3, lookup_insert_eq in Hdata. injection Hdata as <-.
      rewrite Hf3, (delete_fresh_insert _ _ _ Hfresh) in Hfiles.
      destruct Hshape as [Hnone|(px & fmt & Hpx & Hw & ->)].
      + rewrite Hnone in Hfmt. destruct Hfmt as [? [=]].
      + right. right. left. exists px, fmt. auto.
    - rewrite Hf3, (delete_fresh_insert _ _ _ Hfresh), delete_insert_eq in Hfiles.
      right. right. right. auto. }
  destruct (piexif E) eqn:Hpi.
  - destruct (_copy_exif (rn_path r) f fs2) as [[[]|e] fs3] eqn:Hcopy; cbn [fst snd].
    + apply _copy_exif_ok in Hcopy as (Hc3 & Hd3 & Ht3 & s & Hs & Hcase).
      assert (Hread2 : read_file fs2 f = Some c2).
      { unfold read_file. rewrite (abspath_abs fs2 f Hfabs), Hf2. apply lookup_insert_eq. }
      assert (Hfiles3 : exists c3, files fs3 = <[f := c3]> (files fs) /\
                (c3 = c2 \/
                 exists e, is_jpeg s = true /\ fd_exif s = Some e /\
                   is_jpeg c2 = true /\ c3 = set_exif e c2)).
      { destruct Hcase as [[_ ->]|(e & dd & Hjs & Hes & Hdd & ->)].
        - exists c2. auto.
        - rewrite Hread2 in Hdd. injection Hdd as <-.
          destruct (is_jpeg c2) eqn:Hj2.
          + exists (set_exif e c2). rewrite (abspath_abs fs2 f Hfabs), Hf2, insert_insert_eq.
            split; [reflexivity|]. right. exists e. auto.
          + exists c2. auto. }
      destruct Hfiles3 as (c3 & Hf3 & Hc3').
      refine (H3 fs3 _ _ _ c3 Hf3 _); [congruence|congruence|congruence|].
      destruct Hc2 as [->|(px & fmt & Hpx & Hw & ->)].
      * left. destruct Hc3' as [->|(e & _ & _ & Hj & _)]; [reflexivity|discriminate].
      * right. exists px, fmt. split; [exact Hpx|]. split; [exact Hw|].
        unfold expected_exif. rewrite Hpi. cbn [andb].
        destruct (decide (f = dst)) as [Heq|Hne].
        -- destruct (Hsrc2' Heq) as [Hs2 Hnone]. rewrite Hs2 in Hs. injection Hs as <-.
           rewrite Hnone. destruct Hc3' as [->|(e & _ & He & _)]; [|discriminate].
           destruct (String.eqb fmt "jpeg"); reflexivity.
        -- rewrite (Hsrc2 Hne) in Hs. rewrite Hs.
           destruct Hc3' as [->|(e & Hjs & He & Hj & ->)].
           ++ destruct Hcase as [[Hjs _]|(e & dd & Hjs & He & Hdd & Hfs3)].
              ** rewrite Hjs. destruct (String.eqb fmt "jpeg"); reflexivity.
              ** rewrite Hread2 in Hdd. injection Hdd as <-.
                 change (is_jpeg (image_file fmt px None)) with (String.eqb fmt "jpeg") in Hfs3.
                 destruct (String.eqb fmt "jpeg") eqn:Hfmt; [|reflexivity].
                 exfalso. rewrite Hfs3, (abspath_abs fs2 f Hfabs), Hf2, insert_insert_eq in Hf3.
                 assert (Hl : (<[f := set_exif e (image_file fmt px None)]> (files fs)) !! f
                              = (<[f := image_file fmt px None]> (files fs)) !! f)
                   by (rewrite Hf3; reflexivity).
                 rewrite !lookup_insert_eq in Hl. discriminate.
           ++ change (is_jpeg (image_file fmt px None)) with (String.eqb fmt "jpeg") in Hj.
              rewrite Hj, Hjs, He. reflexivity.
    + pose proof (_copy_exif_raise_kind _ _ _ _ _ Hcopy) as Hkind.
      apply _copy_exif_raise in Hcopy. subst fs3.
      split; [congruence|]. split; [congruence|].
      split; [exists k; rewrite Htmp2; exact Hk|].
      right. left. exists f, c2. split; [exact Hfresh|]. split; [exact Hdirname|].
      split; [exact Hf2|]. exists e. auto.
  - refine (H3 fs2 _ _ Htmp2 c2 Hf2 _); [congruence|congruence|].
    destruct Hc2 as [->|(px & fmt & Hpx & Hw & ->)]; [left; reflexivity|].
    right. exists px, fmt. unfold expected_exif. rewrite Hpi. auto.
Qed.

Lemma run_cases (E : Env) (r : WriteImageRunner) (fs : FS) :
  (fst (fst (run E r fs)) = Ok tt /\ snd (fst (run E r fs)) = fs) \/
  (snd (fst (run E r fs)) = snd (_write E r fs) /\
   fst (fst (run E r fs))
   = match fst (_write E r fs) with
     | Ok _ => Ok tt
     | Raise e => if is_WriteError e then Ok tt else Raise e
     end).
Proof.
  unfold run. destruct (_can_write r fs) as [[]|e] eqn:Hc.
  - right. destruct (_write E r fs) as [[[]|e] fs']; cbn [fst snd]; [auto|].
    destruct (is_WriteError e); auto.
  - left. unfold _can_write in Hc.
    destruct (negb (isinstance_QPixmap (rn_pixmap r))); [injection Hc as <-; auto|].
    destruct (exists_ fs (rn_path r)); [|discriminate].
    destruct (negb (canRead fs (rn_path r))); [injection Hc as <-; auto|discriminate].
Qed.

(** X2. A write job changes no file that exists other than its
    destination, and neither the directories nor the working directory.
    When run returns, with the image saved or with a logged error, the
    files are what they were everywhere but at the destination: no
    temporary file is left. *)
Theorem run_changes_only_destination (E : Env) (r : WriteImageRunner) (fs : FS) :
  normalized (getcwd fs) = true ->
  forallb plain_name (tmpnames fs) = true ->
  let dst := abspath fs (rn_path r) in
  let res := fst (fst (run E r fs)) in
  let fs' := snd (fst (run E r fs)) in
  cwd fs' = cwd fs /\ dirs fs' = dirs fs /\
  (forall p, p <> dst -> is_Some (files fs !! p) -> files fs' !! p = files fs !! p) /\
  (res = Ok tt -> forall p, p <> dst -> files fs' !! p = files fs !! p).
Proof.
  intros Hn Hnames dst res fs'. subst res fs'.
  destruct (run_cases E r fs) as [[Hres ->]|[-> ->]]; [auto|].
  destruct (_write_outcome E r fs Hn Hnames) as (Hc & Hd & _ & Hcases).
  fold dst in Hcases. split; [exact Hc|]. split; [exact Hd|].
  destruct Hcases as [[Hf (e & -> & He)]|[(f & c & Hfresh & _ & Hf & e & -> & He)
                     |[(px & fmt & _ & _ & Hf & ->)|[Hf ->]]]]; rewrite Hf.
  - rewrite He. split; [auto|discriminate].
  - rewrite He. split; [|discriminate].
    intros p Hp [d Hd']. apply lookup_insert_ne. congruence.
  - split; intros; apply lookup_insert_ne; congruence.
  - split; intros; apply lookup_delete_ne; congruence.
Qed.

Lemma run_changes_only_destination_witness :
  let fs' := snd (fst (run Fixtures.with_piexif Fixtures.job_photo Fixtures.disk)) in
  cwd fs' = "/home/u" /\ dirs fs' = dirs Fixtures.disk /\
  (forall p, p <> "/home/u/photo.jpg" -> is_Some (files Fixtures.disk !! p) ->
     files fs' !! p = files Fixtures.disk !! p) /\
  (fst (fst (run Fixtures.with_piexif Fixtures.job_photo Fixtures.disk)) = Ok tt ->
   forall p, p <> "/home/u/photo.jpg" -> files fs' !! p = files Fixtures.disk !! p).
Proof.
  apply (run_changes_only_destination Fixtures.with_piexif Fixtures.job_photo
           Fixtures.disk); vm_compute; reflexivity.
Defined.



Lemma forallb_drop {A} (P : A -> bool) (k : nat) (l : list A) :
  forallb P l = true -> forallb P (drop k l) = true.
Proof.
  revert k. induction l as [|x l IH]; intros [|k] H; cbn; auto.
  cbn in H. apply andb_true_iff in H as [_ H]. auto.
Qed.

(** X4. Writing the same job a second time, after the first write has
    succeeded, changes nothing: when the second write succeeds too, the
    files are exactly what the first write left. *)
Theorem write_twice_same_files (E : Env) (r : WriteImageRunner) (fs fs1 fs2 : FS) :
  normalized (getcwd fs) = true ->
  forallb plain_name (tmpnames fs) = true ->
  _write E r fs = (Ok tt, fs1) ->
  _write E r fs1 = (Ok tt, fs2) ->
  files fs2 = files fs1 /\ read_file fs2 (rn_path r) = read_file fs1 (rn_path r).
Proof.
  intros Hn Hnames H1 H2.
  destruct (_write_outcome E r fs Hn Hnames) as (Hc1 & _ & (k & Hk) & Hcases1).
  rewrite H1 in Hc1, Hk, Hcases1. cbn [fst snd] in Hc1, Hk, Hcases1.
  assert (Hn1 : normalized (getcwd fs1) = true) by (unfold getcwd in *; congruence).
  assert (Hnames1 : forallb plain_name (tmpnames fs1) = true).
  { rewrite Hk. apply forallb_drop, Hnames. }
  destruct (_write_outcome E r fs1 Hn1 Hnames1) as (Hc2 & _ & _ & Hcases2).
  rewrite H2 in Hc2, Hcases2. cbn [fst snd] in Hc2, Hcases2.
  destruct Hcases1 as [[_ (e & [=] & _)]|[(f & c & _ & _ & _ & e & [=] & _)
                      |[(px & fmt & Hpx & Hfmt & Hf1 & _)|[_ [=]]]]].
  destruct Hcases2 as [[_ (e & [=] & _)]|[(f & c & _ & _ & _ & e & [=] & _)
                      |[(px' & fmt' & Hpx' & Hfmt' & Hf2 & _)|[_ [=]]]]].
  rewrite Hpx in Hpx'. injection Hpx' as <-.
  rewrite Hfmt in Hfmt'. injection Hfmt' as <-.
  assert (Hdst : abspath fs1 (rn_path r) = abspath fs (rn_path r))
    by (unfold abspath; congruence).
  assert (Hread1 : read_file fs1 (rn_path r)
                   = Some (image_file fmt px (expected_exif E fs r fmt))).
  { unfold read_file. rewrite Hdst, Hf1. apply lookup_insert_eq. }
  assert (Hexif : expected_exif E fs1 r fmt = expected_exif E fs r fmt).
  { unfold expected_exif at 1. rewrite Hread1.
    change (is_jpeg (image_file fmt px ?x)) with (String.eqb fmt "jpeg").
    unfold expected_exif.
    destruct (piexif E); [|reflexivity]. cbn [andb].
    destruct (String.eqb fmt "jpeg"); reflexivity. }
  assert (Hfiles : files fs2 = files fs1).
  { rewrite Hf2, Hexif, Hdst, Hf1. apply insert_insert_eq. }
  split; [exact Hfiles|].
  unfold read_file, abspath. rewrite Hc2, Hfiles. reflexivity.
Qed.

Lemma write_twice_same_files_witness :
  let fs1 := snd (_write Fixtures.with_piexif Fixtures.job_photo Fixtures.disk) in
  let fs2 := snd (_write Fixtures.with_piexif Fixtures.job_photo fs1) in
  files fs2 = files fs1 /\ read_file fs2 "photo.jpg" = read_file fs1 "photo.jpg".
Proof.
  intros fs1 fs2.
  apply (write_twice_same_files Fixtures.with_piexif Fixtures.job_photo Fixtures.disk
           fs1 fs2); vm_compute; reflexivity.
Defined.

(** X5. A WriteError raised by _write is "No valid image written. Is the
    extention valid?" (once the rename has succeeded the destination is a
    file, so the other message does not occur), and then the destination
    is gone: the temporary file had been moved over whatever was there and
    was removed again.  Every other file is as before. *)
Theorem write_error_removes_destination (E : Env) (r : WriteImageRunner) (fs : FS)
    (msg : string) :
  normalized (getcwd fs) = true ->
  forallb plain_name (tmpnames fs) = true ->
  fst (_write E r fs) = Raise (WriteError msg) ->
  let fs' := snd (_write E r fs) in
  msg = "No valid image written. Is the extention valid?" /\
  files fs' = delete (abspath fs (rn_path r)) (files fs) /\
  isfile fs' (rn_path r) = false.
Proof.
  intros Hn Hnames Hres fs'. subst fs'.
  destruct (_write_outcome E r fs Hn Hnames) as (Hc & _ & _ & Hcases).
  rewrite Hres in Hcases.
  destruct Hcases as [[_ (e & [= <-] & [=])]|[(f & c & _ & _ & _ & e & [= <-] & [=])
                     |[(px & fmt & _ & _ & _ & [=])|[Hf [= ->]]]]].
  split; [reflexivity|]. split; [exact Hf|].
  unfold isfile, read_file, abspath. rewrite Hc, Hf.
  fold (abspath fs (rn_path r)). rewrite lookup_delete_eq.
  apply bool_decide_eq_false. intros [x [=]].
Qed.

Lemma write_error_removes_destination_witness :
  let fs' := snd (_write Fixtures.with_piexif Samples.job_scan Samples.desk) in
  isfile Samples.desk "/home/u/scan.tiff" = true /\
  files fs' = delete "/home/u/scan.tiff" (files Samples.desk) /\
  isfile fs' "/home/u/scan.tiff" = false.
Proof.
  intros fs'. split; [vm_compute; reflexivity|].
  apply (write_error_removes_destination Fixtures.with_piexif Samples.job_scan
           Samples.desk "No valid image written. Is the extention valid?");
    vm_compute; reflexivity.
Defined.

(** X6. When an exception escapes from a write (from mkstemp, from piexif
    or from the rename), a file that was at the destination is unchanged;
    what may stay behind is one new file in the working directory, the
    temporary file, which nothing removes. *)
Theorem write_escape_keeps_destination (E : Env) (r : WriteImageRunner) (fs : FS)
    (e : Exc) :
  normalized (getcwd fs) = true ->
  forallb plain_name (tmpnames fs) = true ->
  fst (_write E r fs) = Raise e ->
  is_WriteError e = false ->
  let dst := abspath fs (rn_path r) in
  let fs' := snd (_write E r fs) in
  (is_Some (files fs !! dst) -> files fs' !! dst = files fs !! dst) /\
  (files fs' = files fs \/
   exists f c, files fs !! f = None /\ dirname f = getcwd fs /\
     files fs' = <[f := c]> (files fs)).
Proof.
  intros Hn Hnames Hres He dst fs'. subst fs'.
  destruct (_write_outcome E r fs Hn Hnames) as (_ & _ & _ & Hcases).
  rewrite Hres in Hcases. fold dst in Hcases.
  destruct Hcases as [[Hf _]|[(f & c & Hfresh & Hdir & Hf & _)
                     |[(px & fmt & _ & _ & _ & [=])|[_ [= ->]]]]].
  - rewrite Hf. auto.
  - split; [|right; exists f, c; auto].
    intros [d Hd]. rewrite Hf. apply lookup_insert_ne. congruence.
  - discriminate.
Qed.

Lemma write_escape_keeps_destination_witness :
  let fs' := snd (_write Fixtures.with_piexif Fixtures.job_stick Fixtures.disk) in
  fst (_write Fixtures.with_piexif Fixtures.job_stick Fixtures.disk) = Raise OSError /\
  (is_Some (files Fixtures.disk !! "/mnt/usb/old.jpg") ->
   files fs' !! "/mnt/usb/old.jpg" = files Fixtures.disk !! "/mnt/usb/old.jpg") /\
  (files fs' = files Fixtures.disk \/
   exists f c, files Fixtures.disk !! f = None /\ dirname f = "/home/u" /\
     files fs' = <[f := c]> (files Fixtures.disk)).
Proof.
  intros fs'. split; [vm_compute; reflexivity|].
  apply (write_escape_keeps_destination Fixtures.with_piexif Fixtures.job_stick
           Fixtures.disk OSError); vm_compute; reflexivity.
Defined.

(** ** The handler *)

Lemma _load_pool (E : Env) (fs : FS) (path : string) (s : ImageFileHandler) :
  _pool (_load E fs path s) = _pool s /\
  transform (_load E fs path s) = transform s /\
  manipulate (_load E fs path s) = manipulate s.
Proof.
  unfold _load. destruct (negb (canRead fs path)); [auto|].
  destruct (String.eqb (reader_format fs path) "svg" && QSvgWidget E); [auto|].
  destruct (supportsAnimation fs path); auto.
Qed.

(** X7. An image loaded as a vector graphic or as an animation cannot be
    saved: after _load of such a path, the write command (with or without a
    path) queues a job that is rejected when the pool is drained, and the
    file system is not touched. *)
Theorem loaded_animation_is_not_written (E : Env) (fs fs1 : FS) (path : string)
    (args : list string) (imstorage_current : string) (s : ImageFileHandler) :
  canRead fs path = true ->
  (String.eqb (reader_format fs path) "svg" && QSvgWidget E)
  || supportsAnimation fs path = true ->
  _pool s = [] ->
  let s1 := write args imstorage_current (_load E fs path s) in
  let dest := match args with [] => imstorage_current | _ => join " " args end in
  snd (waitForDone E fs1 s1) = fs1 /\
  logged (fst (waitForDone E fs1 s1))
  = (logged s ++ [Info ("Saving " ++ dest ++ "..."); Error "Cannot write animations"])%list.
Proof.
  intros Hread Hkind Hpool s1 dest.
  assert (Hload : exists s0, _load E fs path s = s0 /\ _pool s0 = [] /\
            logged s0 = logged s /\
            isinstance_QPixmap (deref s0 (current (_pixmaps s0))) = false).
  { eexists. split; [reflexivity|]. unfold _load. rewrite Hread. cbn [negb].
    destruct (String.eqb (reader_format fs path) "svg" && QSvgWidget E).
    - repeat split. exact Hpool.
    - cbn [orb] in Hkind. rewrite Hkind. repeat split; [exact Hpool|].
      cbn. rewrite list_lookup_middle by reflexivity. reflexivity. }
  destruct Hload as (s0 & Hs0 & Hpool0 & Hlog0 & Hk).
  subst s1. rewrite Hs0. unfold write. fold dest.
  unfold waitForDone, write_pixmap. cbn [_pool _reset pool_start logged].
  rewrite Hpool0. cbn [app run_all].
  unfold run, _can_write. cbn [rn_pixmap rn_path]. rewrite Hk. cbn [negb is_WriteError fst snd].
  rewrite Hlog0. split; reflexivity.
Qed.

Lemma loaded_animation_is_not_written_witness :
  let s1 := write [] "/home/u/clip.gif"
              (_load Fixtures.with_piexif Fixtures.disk "/home/u/clip.gif"
                 new_ImageFileHandler) in
  snd (waitForDone Fixtures.with_piexif Fixtures.disk s1) = Fixtures.disk /\
  logged (fst (waitForDone Fixtures.with_piexif Fixtures.disk s1))
  = [Info "Saving /home/u/clip.gif..."; Error "Cannot write animations"].
Proof.
  apply (loaded_animation_is_not_written Fixtures.with_piexif Fixtures.disk Fixtures.disk
           "/home/u/clip.gif" [] "/home/u/clip.gif" new_ImageFileHandler);
    vm_compute; reflexivity.
Defined.

(** X8. When another image is opened, the job that is queued, if any, is
    for the image shown so far: its path and its current pixmap.  One job
    is queued when autowrite is on and the transform or the manipulator
    has changed, none otherwise; the new image is loaded only after that,
    and becomes the path of the handler when it can be read. *)
Theorem open_writes_previous_image (E : Env) (fs : FS) (path : string)
    (s : ImageFileHandler) :
  let s' := _on_new_image_opened E fs path s in
  _pool s'
  = (_pool s
     ++ if IMAGE_AUTOWRITE E
           && (transform_changed (transform s) || manipulate_changed (manipulate s))
        then [{| rn_pixmap := deref s (current (_pixmaps s)); rn_path := _path s |}]
        else [])%list /\
  transform_changed (transform s') = false /\
  _path s' = (if canRead fs path then path else _path s).
Proof.
  intros s'. subst s'. unfold _on_new_image_opened.
  destruct (_load_pool E fs path (_maybe_write E (_path s) s)) as (-> & -> & _).
  assert (Hpath : forall s0, _path (_load E fs path s0)
                             = if canRead fs path then path else _path s0).
  { intros s0. unfold _load. destruct (canRead fs path); reflexivity. }
  rewrite Hpath. unfold _maybe_write.
  destruct (IMAGE_AUTOWRITE E); cbn [negb andb].
  - destruct (transform_changed (transform s)) eqn:Ht; cbn [orb].
    + repeat split.
    + destruct (manipulate_changed (manipulate s)); repeat split; auto.
      rewrite app_nil_r. reflexivity.
  - repeat split. rewrite app_nil_r. reflexivity.
Qed.

(** ** The internal keys *)

Lemma dict_get_elem {A} (d : list (string * A)) (k : string) (v : A) :
  dict_get d k = Some v -> (k, v) ∈ d.
Proof.
  induction d as [|[k' v'] d IH]; cbn; [discriminate|].
  destruct (String.eqb k' k) eqn:Hk.
  - intros [= ->]. apply String.eqb_eq in Hk as ->. apply elem_of_cons. left. reflexivity.
  - intros H. apply elem_of_cons. right. auto.
Qed.

(** Each key of the dict is the lower-case form of the name it stands for. *)
Lemma internal_keys_names (k name : string) (g : Getter) :
  (k, (name, g)) ∈ internal_keys ->
  name ∈ gen_items internal_get_keys /\ k = lower name.
Proof.
  change (gen_items internal_get_keys)
    with ["Vimiv.FileSize"; "Vimiv.XDimension"; "Vimiv.YDimension"; "Vimiv.FileType"].
  unfold internal_keys. intros H.
  repeat (apply elem_of_cons in H as [[= -> -> ->]|H];
          [split; [rewrite !elem_of_cons; auto 6|vm_compute; reflexivity]|]).
  apply elem_of_nil in H. contradiction.
Qed.

(** X9. The names get_keys lists for the internal handler are exactly the
    keys it resolves, in any spelling of upper and lower case: asking
    fetch_key for such a name calls the getter of that key and returns the
    name as lookup key and as display name, without making an external
    handler.  Any other key in the vimiv namespace is a TypeError. *)
Theorem internal_names_resolve (X : Externals) (fs : FS) (h : MetadataHandler)
    (key : string) :
  startswith (lower key) "vimiv" = true ->
  (forall name, name ∈ gen_items internal_get_keys -> lower key = lower name ->
     exists getter,
       dict_get internal_keys (lower name) = Some (name, getter) /\
       fst (fetch_key X fs h key)
       = bind (fst (call_getter X fs getter (fst (_internal_handler h))))
              (fun v => Ok (Some (name, name, v))) /\
       _ext_handler (snd (fetch_key X fs h key)) = _ext_handler h) /\
  ((forall name, name ∈ gen_items internal_get_keys -> lower key <> lower name) ->
   fst (fetch_key X fs h key) = Raise TypeError).
Proof.
  intros Hk. destruct (fetch_key_internal X fs h key Hk) as [Hext Hres].
  split.
  - intros name Hname Hlow.
    assert (Hget : exists getter, dict_get internal_keys (lower name) = Some (name, getter)).
    { change (gen_items internal_get_keys)
        with ["Vimiv.FileSize"; "Vimiv.XDimension"; "Vimiv.YDimension"; "Vimiv.FileType"]
        in Hname.
      repeat (apply elem_of_cons in Hname as [->|Hname]; [eexists; reflexivity|]).
      apply elem_of_nil in Hname. contradiction. }
    destruct Hget as [getter Hget]. exists getter. split; [exact Hget|].
    split; [|exact Hext].
    rewrite Hres. unfold internal_getitem. rewrite Hlow, Hget.
    destruct (call_getter X fs getter (_internal_handler h).1) as [[v|e] ih']; reflexivity.
  - intros Hnone. rewrite Hres. unfold internal_getitem.
    destruct (dict_get internal_keys (lower key)) as [[name getter]|] eqn:Hget;
      [|reflexivity].
    exfalso. apply dict_get_elem, internal_keys_names in Hget as [Hname Hlow].
    exact (Hnone name Hname Hlow).
Qed.

Lemma internal_names_resolve_witness :
  exists getter,
    dict_get internal_keys (lower "Vimiv.XDimension") = Some ("Vimiv.XDimension", getter) /\
    fst (fetch_key Fixtures.no_backend Fixtures.disk
           (new_MetadataHandler "/home/u/photo.jpg") "VIMIV.xdimension")
    = bind (fst (call_getter Fixtures.no_backend Fixtures.disk getter
                   (fst (_internal_handler (new_MetadataHandler "/home/u/photo.jpg")))))
           (fun v => Ok (Some ("Vimiv.XDimension", "Vimiv.XDimension", v))) /\
    _ext_handler (snd (fetch_key Fixtures.no_backend Fixtures.disk
                         (new_MetadataHandler "/home/u/photo.jpg") "VIMIV.xdimension"))
    = None.
Proof.
  apply (proj1 (internal_names_resolve Fixtures.no_backend Fixtures.disk
                  (new_MetadataHandler "/home/u/photo.jpg") "VIMIV.xdimension" eq_refl)
           "Vimiv.XDimension").
  - apply elem_of_cons. right. apply elem_of_cons. left. reflexivity.
  - vm_compute; reflexivity.
Defined.

(** ** The external handlers *)

(** X10. The external handler is made once.  A first lookup of an external
    key constructs it from the file and stores it; from then on fetch_key
    and get_keys answer from the stored handler and do not look at the
    file system again, so a later change of the file is not seen.  When
    the constructor raises, nothing is stored and the exception is the
    result. *)
Theorem external_handler_is_cached (X : Externals) (fs fs' : FS) (h : MetadataHandler)
    (key key' : string) :
  startswith (lower key) "vimiv" = false ->
  startswith (lower key') "vimiv" = false ->
  _ext_handler h = None ->
  let h1 := snd (fetch_key X fs h key) in
  (forall eh, new_ExternalKeyHandler X fs (filename h) = Ok eh ->
     _ext_handler h1 = Some eh /\
     fst (fetch_key X fs h key) = ext_fetch_key X eh key /\
     fetch_key X fs' h1 key' = (ext_fetch_key X eh key', h1) /\
     fst (get_keys X fs' h1)
     = bind (ext_get_keys X eh) (fun g => Ok (chain internal_get_keys g))) /\
  (forall e, new_ExternalKeyHandler X fs (filename h) = Raise e ->
     h1 = h /\ fst (fetch_key X fs h key) = Raise e).
Proof.
  intros Hk Hk' Hnone h1.
  assert (H1 : fetch_key X fs h key
               = match new_ExternalKeyHandler X fs (filename h) with
                 | Ok eh => (ext_fetch_key X eh key, set_ext eh h)
                 | Raise e => (Raise e, h)
                 end).
  { unfold fetch_key. rewrite Hk. unfold _external_handler. rewrite Hnone.
    destruct (new_ExternalKeyHandler X fs (filename h)); reflexivity. }
  subst h1. rewrite H1. split.
  - intros eh ->. cbn [fst snd]. split; [reflexivity|]. split; [reflexivity|].
    split.
    + unfold fetch_key. rewrite Hk'. reflexivity.
    + unfold get_keys, _internal_handler. cbn [_int_handler set_ext].
      destruct (_int_handler h); reflexivity.
  - intros e ->. cbn [fst snd]. auto.
Qed.

Lemma external_handler_is_cached_witness :
  let h := new_MetadataHandler "/home/u/photo.jpg" in
  let h1 := snd (fetch_key Fixtures.piexif_only Fixtures.disk h "Orientation") in
  _ext_handler h1 = Some (Piexif "/home/u/photo.jpg" (Some Fixtures.photo_exif)) /\
  fst (fetch_key Fixtures.piexif_only Fixtures.disk h "Orientation")
  = ext_fetch_key Fixtures.piexif_only
      (Piexif "/home/u/photo.jpg" (Some Fixtures.photo_exif)) "Orientation" /\
  fetch_key Fixtures.piexif_only Samples.desk h1 "DateTime"
  = (ext_fetch_key Fixtures.piexif_only
       (Piexif "/home/u/photo.jpg" (Some Fixtures.photo_exif)) "DateTime", h1) /\
  fst (get_keys Fixtures.piexif_only Samples.desk h1)
  = bind (ext_get_keys Fixtures.piexif_only
            (Piexif "/home/u/photo.jpg" (Some Fixtures.photo_exif)))
         (fun g => Ok (chain internal_get_keys g)).
Proof.
  intros h h1.
  apply (proj1 (external_handler_is_cached Fixtures.piexif_only Fixtures.disk Samples.desk
                  h "Orientation" "DateTime" ltac:(vm_compute; reflexivity)
                  ltac:(vm_compute; reflexivity) ltac:(reflexivity))).
  vm_compute; reflexivity.
Defined.

Lemma rpartition_tail_none (sep : ascii) (s : string) :
  has_char sep s = false -> rpartition_tail sep s = s.
Proof.
  destruct s as [|c s]; [reflexivity|]. intros H.
  change (rpartition_tail sep (String c s))
    with (if has_char sep s then rpartition_tail sep s
          else if Ascii.eqb sep c then s else String c s).
  unfold has_char in H. cbn in H. apply orb_false_iff in H as [Hc Hs].
  fold (has_char sep s) in Hs. rewrite Hs, Hc. reflexivity.
Qed.

(** X11. The piexif handler looks at the last component of the key only:
    whatever precedes the last dot, be it Exif.Image or anything else,
    makes no difference to what fetch_key returns. *)
Theorem piexif_fetch_key_ignores_prefix (X : Externals) (md : option ExifDict)
    (prefix name : string) :
  has_char "." name = false ->
  piexif_fetch_key X md (prefix ++ "." ++ name) = piexif_fetch_key X md name.
Proof.
  intros Hname. unfold piexif_fetch_key.
  change (prefix ++ "." ++ name) with (prefix ++ String "." name).
  rewrite (rpartition_tail_app "." prefix name Hname).
  rewrite (rpartition_tail_none "." name Hname). reflexivity.
Qed.

Lemma piexif_fetch_key_ignores_prefix_witness :
  piexif_fetch_key Fixtures.piexif_only (Some Fixtures.photo_exif)
    ("Xmp.anything" ++ "." ++ "DateTime")
  = piexif_fetch_key Fixtures.piexif_only (Some Fixtures.photo_exif) "DateTime".
Proof.
  apply (piexif_fetch_key_ignores_prefix Fixtures.piexif_only (Some Fixtures.photo_exif)
           "Xmp.anything" "DateTime").
  vm_compute; reflexivity.
Defined.

Lemma piexif_tag_found (X : Externals) (ifd key : string) (tag : Z) (val : Val)
    (t : Triple) :
  piexif_tag X ifd key tag val = Found t ->
  exists s ty, t = (key, key, VStr s) /\ TAGS X ifd tag = Some (key, ty).
Proof.
  unfold piexif_tag. destruct (TAGS X ifd tag) as [[keyname keytype]|]; [|discriminate].
  destruct (String.eqb keyname key) eqn:Hk; cbn [negb]; [|discriminate].
  apply String.eqb_eq in Hk. subst keyname.
  destruct (in_types keytype int_types).
  { intros [= <-]. eauto. }
  destruct (in_types keytype [TYPES.Ascii; TYPES.Undefined]).
  { unfold val_decode. destruct val; try discriminate.
    destruct (bytes_decode b); cbn; [|discriminate]. intros [= <-]. eauto. }
  destruct (in_types keytype [TYPES.Rational; TYPES.SRational]); [|discriminate].
  destruct (val_index val 0) as [a|]; [|discriminate].
  destruct (val_index val 1) as [b|]; [|discriminate].
  intros [= <-]. eauto.
Qed.

Lemma piexif_tags_found (X : Externals) (ifd key : string) (tags : Ifd) (t : Triple) :
  piexif_tags X ifd key tags = Found t ->
  exists s ty tag val, t = (key, key, VStr s) /\ (tag, val) ∈ tags /\
    TAGS X ifd tag = Some (key, ty).
Proof.
  induction tags as [|[tag val] tags IH]; cbn; [discriminate|].
  destruct (piexif_tag X ifd key tag val) as [t'| |e] eqn:Ht.
  - intros [= <-]. apply piexif_tag_found in Ht as (s & ty & -> & Hty).
    exists s, ty, tag, val. split; [reflexivity|]. split; [apply elem_of_cons; auto|exact Hty].
  - intros H. destruct (IH H) as (s & ty & tag' & val' & -> & Hin & Hty).
    exists s, ty, tag', val'. split; [reflexivity|]. split; [apply elem_of_cons; auto|exact Hty].
  - discriminate.
Qed.

(** X12. What the piexif handler finds is always the tag it was asked for:
    a triple it returns has the last component of the key as lookup key and
    as display name, a text as value, and comes from a tag of the loaded
    data that piexif's table knows under this name. *)
Theorem piexif_fetch_key_found (X : Externals) (d : ExifDict) (base_key : string)
    (t : Triple) :
  piexif_fetch_key X (Some d) base_key = Ok (Some t) ->
  let name := rpartition_tail "." base_key in
  exists s ifd tags tag val ty,
    t = (name, name, VStr s) /\
    (ifd, tags) ∈ ifds d /\ (tag, val) ∈ tags /\
    TAGS X ifd tag = Some (name, ty).
Proof.
  intros H name. unfold piexif_fetch_key in H. fold name in H.
  destruct (piexif_ifds X name (ifds d)) as [t'| |e] eqn:Hscan.
  2:{ discriminate. }
  2:{ destruct (_ || _); discriminate. }
  injection H as <-.
  revert Hscan. generalize (ifds d). intros l.
  induction l as [|[ifd tags] l IH]; cbn; [discriminate|].
  destruct (piexif_tags X ifd name tags) as [t''| |e] eqn:Ht.
  - intros [= <-]. apply piexif_tags_found in Ht as (s & ty & tag & val & -> & Hin & Hty).
    exists s, ifd, tags, tag, val, ty. repeat split; auto. apply elem_of_cons. auto.
  - intros Hl. destruct (IH Hl) as (s & ifd' & tags' & tag & val & ty & -> & Hi & Hin & Hty).
    exists s, ifd', tags', tag, val, ty. repeat split; auto. apply elem_of_cons. auto.
  - discriminate.
Qed.

Lemma piexif_fetch_key_found_witness :
  exists s ifd tags tag val ty,
    ("DateTime", "DateTime", VStr "2020:01:01 10:00:00")
    = (rpartition_tail "." "Exif.Image.DateTime", rpartition_tail "." "Exif.Image.DateTime",
       VStr s) /\
    (ifd, tags) ∈ ifds Fixtures.photo_exif /\ (tag, val) ∈ tags /\
    TAGS Fixtures.piexif_only ifd tag
    = Some (rpartition_tail "." "Exif.Image.DateTime", ty).
Proof.
  apply (piexif_fetch_key_found Fixtures.piexif_only Fixtures.photo_exif
           "Exif.Image.DateTime" ("DateTime", "DateTime", VStr "2020:01:01 10:00:00")).
  vm_compute; reflexivity.
Defined.
